(** * abc_example.py: guarded configuration and configuration parsers

    A shallow embedding of [src/abc_example.py]: the dataclass [Config],
    the property wrapper [ConfigWrapper], its guarded implementation
    [GuardedConfig], and the parsers [JsonConfigParser] and
    [YamlConfigParser].

    Python objects live in a heap and are reached through references, so
    that a wrapper and its caller share the wrapped object.  Statements
    run in a state-and-exception monad over that heap and the standard
    output.  The recursion limit of the interpreter is the fuel of the
    attribute accesses that may call back into a property.

    A Python string is modelled by the string of the bytes of its UTF-8
    encoding.  The IPv4 pattern only tells the ASCII digits and the dot
    from everything else, and no byte of a character outside ASCII is
    one of them, so the pattern matches the text exactly when it matches
    its encoding.

    The [assert] statements are modelled as they run by default, that
    is without the interpreter's [-O] option. *)

From Stdlib Require Import ZArith String Ascii List Lia.
From Stdlib Require Import Floats.SpecFloat.
From stdpp Require Import base gmap strings list pretty.

Local Open Scope string_scope.
Local Open Scope list_scope.

#[local] Set Warnings "-register-all".

(** ** Values *)

Definition loc := positive.

(** The values a configuration field can hold: what [json.loads] and
    [yaml.load] build, and references to instances of this module's
    classes. *)
Inductive value : Type :=
| VNone
| VBool (b : bool)
| VInt (z : Z)
| VFloat (f : spec_float)
| VStr (s : string)
| VList (l : list value)
| VDict (d : list (value * value))
| VObj (l : loc).

(** [isinstance(value, str)] *)
Definition isinstance_str (v : value) : bool :=
  match v with VStr _ => true | _ => false end.

(** [isinstance(value, int)]: [bool] is a subclass of [int]. *)
Definition isinstance_int (v : value) : bool :=
  match v with VInt _ | VBool _ => true | _ => false end.

(** The integer an [int] (or [bool]) instance stands for. *)
Definition int_value (v : value) : option Z :=
  match v with
  | VInt z => Some z
  | VBool true => Some 1%Z
  | VBool false => Some 0%Z
  | _ => None
  end.

(** ** Exceptions *)

Inductive exn_class : Type :=
| AssertionError | AttributeError | TypeError | KeyError | ValueError
| OSError | RecursionError | MemoryError | OtherException
| KeyboardInterrupt | SystemExit | GeneratorExit.

(** [issubclass(c, Exception)]: the last three derive from
    [BaseException] only. *)
Definition is_Exception (c : exn_class) : bool :=
  match c with
  | KeyboardInterrupt | SystemExit | GeneratorExit => false
  | _ => true
  end.

(** An exception instance: its class and its argument, if any. *)
Record exn : Type := Exn { exn_cls : exn_class; exn_arg : option string }.

(** [str(e)] *)
Definition exn_str (e : exn) : string := default "" (exn_arg e).

(** ** Regular expressions

    The fragment of [re] the module uses: character ranges, escaped
    literals, bounded greedy repetition and concatenation. *)

Inductive regex : Type :=
| Range (lo hi : ascii)
| Lit (c : ascii)
| Repeat (r : regex) (m n : nat)
| Seq (r1 r2 : regex).

Definition in_range (lo hi c : ascii) : bool :=
  (nat_of_ascii lo <=? nat_of_ascii c)%nat && (nat_of_ascii c <=? nat_of_ascii hi)%nat.

(** [rep step m n s]: between [m] and [n] iterations of [step], longest
    first; every way of matching, as the list of the remaining inputs in
    the order a backtracking matcher tries them. *)
Fixpoint rep (step : list ascii -> list (list ascii)) (m n : nat)
    (s : list ascii) : list (list ascii) :=
  match n with
  | O => match m with O => [s] | S _ => [] end
  | S n' =>
      match m with
      | O => flat_map (rep step 0 n') (step s) ++ [s]
      | S m' => flat_map (rep step m' n') (step s)
      end
  end.

Fixpoint rmatch (r : regex) (s : list ascii) : list (list ascii) :=
  match r with
  | Range lo hi =>
      match s with
      | c :: s' => if in_range lo hi c then [s'] else []
      | [] => []
      end
  | Lit a =>
      match s with
      | c :: s' => if Ascii.eqb a c then [s'] else []
      | [] => []
      end
  | Repeat r m n => rep (rmatch r) m n s
  | Seq r1 r2 => flat_map (rmatch r2) (rmatch r1 s)
  end.

(** [re.match(pattern, string)]: the pattern is tried at the start of the
    string only, and nothing anchors it at the end.  The result is the
    matched text ([m.group(0)]) or [None]. *)
Definition re_match (r : regex) (s : string) : option string :=
  let cs := list_ascii_of_string s in
  match rmatch r cs with
  | [] => None
  | rest :: _ =>
      Some (string_of_list_ascii (take (length cs - length rest) cs))
  end.

(** The language of a pattern, for stating what [rmatch] computes. *)
Fixpoint lang_rep (L : list ascii -> Prop) (k : nat) (w : list ascii) : Prop :=
  match k with
  | O => w = []
  | S k' => exists u v, w = u ++ v /\ L u /\ lang_rep L k' v
  end.

Fixpoint lang (r : regex) (w : list ascii) : Prop :=
  match r with
  | Range lo hi => exists c, w = [c] /\ in_range lo hi c = true
  | Lit a => w = [a]
  | Repeat r m n => exists k, (m <= k <= n)%nat /\ lang_rep (lang r) k w
  | Seq r1 r2 => exists u v, w = u ++ v /\ lang r1 u /\ lang r2 v
  end.

(** The digit-and-dot shape the pattern describes, in the words of the
    specification: four groups of one to three digits, separated by
    dots. *)
Definition is_digit (c : ascii) : bool := in_range "0" "9" c.

Definition digit_group (g : list ascii) : Prop :=
  (1 <= length g <= 3)%nat /\ Forall (fun c => is_digit c = true) g.

Definition dotted_quad (w : list ascii) : Prop :=
  exists g1 g2 g3 g4,
    w = g1 ++ "."%char :: g2 ++ "."%char :: g3 ++ "."%char :: g4 /\
    digit_group g1 /\ digit_group g2 /\ digit_group g3 /\ digit_group g4.

(** The whole string is a dotted quad. *)
Definition is_dotted_quad (s : string) : Prop :=
  dotted_quad (list_ascii_of_string s).

(** The string starts with a dotted quad; anything may follow. *)
Definition has_dotted_quad_prefix (s : string) : Prop :=
  exists q rest, is_dotted_quad q /\ s = q +:+ rest.

(** ** The interpreter and its libraries

    What the module calls and does not define: [str()] of the values
    whose rendering is the interpreter's business, the file system, and
    the two deserialisers. *)
Definition file := nat.

Record externals : Type := Externals {
  builtin_str : value -> string;          (* str() of floats, containers, instances *)
  open_ : string -> exn + file;           (* open(path, "r") *)
  read : file -> exn + string;            (* f.read() *)
  json_loads : string -> exn + value;     (* json.loads(text) *)
  yaml_load : string -> exn + value       (* yaml.load(text) *)
}.

(** [str(v)], what an f-string field [{v}] expands to. *)
Definition py_str (E : externals) (v : value) : string :=
  match v with
  | VNone => "None"
  | VBool true => "True"
  | VBool false => "False"
  | VInt z => pretty z
  | VStr s => s
  | _ => builtin_str E v
  end.

(** ** Objects and the heap *)

Inductive py_class : Type := Config | GuardedConfig.

(** [cls.__name__] *)
Definition class_name (c : py_class) : string :=
  match c with Config => "Config" | GuardedConfig => "GuardedConfig" end.

(** An instance: its [__class__] and its [__dict__], in insertion order. *)
Record instance : Type := Instance {
  cls : py_class;
  dict : list (string * value)
}.

Record world : Type := World {
  heap : gmap loc instance;
  stdout : list string
}.

(** [d[k]] on an instance dictionary *)
Fixpoint dict_get (d : list (string * value)) (k : string) : option value :=
  match d with
  | [] => None
  | (k', v) :: d' => if String.eqb k' k then Some v else dict_get d' k
  end.

(** [d[k] = v]: the entry is replaced where it stands, or added last. *)
Fixpoint dict_set (d : list (string * value)) (k : string) (v : value)
    : list (string * value) :=
  match d with
  | [] => [(k, v)]
  | (k', v') :: d' =>
      if String.eqb k' k then (k', v) :: d' else (k', v') :: dict_set d' k v
  end.

(** ** Statements: state and exceptions *)

Definition M (A : Type) : Type := world -> (exn + A) * world.

Definition ret {A} (a : A) : M A := fun w => (inr a, w).

Definition bind {A B} (m : M A) (k : A -> M B) : M B :=
  fun w => match m w with
           | (inr a, w') => k a w'
           | (inl e, w') => (inl e, w')
           end.

Definition raise {A} (e : exn) : M A := fun w => (inl e, w).

Notation "'do' x <~ m 'in' k" := (bind m (fun x => k))
  (at level 10, x name, m at level 100, k at level 200, only parsing).

(** The result of an operation of the interpreter or of a library. *)
Definition lift {A} (r : exn + A) : M A :=
  match r with inl e => raise e | inr a => ret a end.

(** [assert cond, msg]: the message is evaluated only on failure. *)
Definition assert_ (cond : bool) (msg : option string) : M unit :=
  if cond then ret tt else raise (Exn AssertionError msg).

(** [try: body / except Exception as e: handler e] *)
Definition try_except_Exception {A} (body : M A) (handler : exn -> M A) : M A :=
  fun w => match body w with
           | (inl e, w') =>
               if is_Exception (exn_cls e) then handler e w' else (inl e, w')
           | (inr a, w') => (inr a, w')
           end.

(** [print(line)] *)
Definition print (line : string) : M unit :=
  fun w => (inr tt, World (heap w) (stdout w ++ [line])).

(** A new object, at a location the heap does not use yet. *)
Definition alloc (o : instance) : M loc :=
  fun w => let l := fresh (dom (heap w)) in
           (inr l, World (<[l := o]> (heap w)) (stdout w)).

(** [type(v).__name__] *)
Definition type_name (w : world) (v : value) : string :=
  match v with
  | VNone => "NoneType"
  | VBool _ => "bool"
  | VInt _ => "int"
  | VFloat _ => "float"
  | VStr _ => "str"
  | VList _ => "list"
  | VDict _ => "dict"
  | VObj l => match heap w !! l with
              | Some o => class_name (cls o)
              | None => "object"
              end
  end.

Definition no_attribute {A} (v : value) (name : string) : M A :=
  fun w => raise (Exn AttributeError
    (Some ("'" +:+ type_name w v +:+ "' object has no attribute '" +:+ name +:+ "'"))) w.

(** Reading an attribute kept in the instance dictionary. *)
Definition getattr_dict (v : value) (name : string) : M value :=
  fun w => match v with
           | VObj l =>
               match heap w !! l with
               | Some o =>
                   match dict_get (dict o) name with
                   | Some x => (inr x, w)
                   | None => no_attribute v name w
                   end
               | None => no_attribute v name w
               end
           | _ => no_attribute v name w
           end.

(** Writing an attribute kept in the instance dictionary. *)
Definition setattr_dict (v : value) (name : string) (x : value) : M unit :=
  fun w => match v with
           | VObj l =>
               match heap w !! l with
               | Some o =>
                   (inr tt,
                    World (<[l := Instance (cls o) (dict_set (dict o) name x)]> (heap w))
                          (stdout w))
               | None => no_attribute v name w
               end
           | _ => no_attribute v name w
           end.

(** The class of the object a value refers to, if it is an instance of
    one of the module's classes. *)
Definition class_of (w : world) (v : value) : option py_class :=
  match v with
  | VObj l => cls <$> heap w !! l
  | _ => None
  end.

(** ** class GuardedConfig(ConfigWrapper) *)

(** [r"[0-9]{1,3}\.[0-9]{1,3}\.[0-9]{1,3}\.[0-9]{1,3}"] *)
Definition _ipv4_regex : regex :=
  let digits := Repeat (Range "0" "9") 1 3 in
  let dot := Lit "." in
  Seq digits (Seq dot (Seq digits (Seq dot (Seq digits (Seq dot digits))))).

Definition _port_min : Z := 0.
Definition _port_max : Z := 65535.

(** [re.match(pattern, value)]: only a string can be searched. *)
Definition re_match_value (r : regex) (v : value) : M (option string) :=
  match v with
  | VStr s => ret (re_match r s)
  | _ => raise (Exn TypeError (Some "expected string or bytes-like object"))
  end.

(** The integer a float is equal to, if any. *)
Definition float_int_value (f : spec_float) : option Z :=
  match f with
  | S754_zero _ => Some 0%Z
  | S754_finite s m e =>
      let sign := if s then Z.opp else (fun z => z) in
      if (0 <=? e)%Z then Some (sign (Z.pos m * 2 ^ e)%Z)
      else if (Z.pos m mod 2 ^ (- e) =? 0)%Z
           then Some (sign (Z.pos m / 2 ^ (- e))%Z)
           else None
  | _ => None
  end.

(** [v in range(lo, hi)]: true when [v] equals one of the integers of
    the range. *)
Definition range_contains (lo hi : Z) (v : value) : bool :=
  let num := match v with
             | VFloat f => float_int_value f
             | _ => int_value v
             end in
  match num with
  | Some z => (lo <=? z)%Z && (z <? hi)%Z
  | None => false
  end.

(** The property getters and setters.  The attribute access on the
    wrapped object is a parameter: it is tied to [dot_ip] and its
    companions below, one frame deeper. *)

Definition GuardedConfig_ip_getter (dot_ip : value -> M value)
    (self : value) : M value :=
  do _config <~ getattr_dict self "_config" in
  dot_ip _config.

Definition GuardedConfig_ip_setter (E : externals)
    (set_ip : value -> value -> M unit) (self value : value) : M unit :=
  do _ <~ assert_ (isinstance_str value) None in
  do m <~ re_match_value _ipv4_regex value in
  do _ <~ assert_ (bool_decide (is_Some m))
       (Some ("ip '" +:+ py_str E value +:+ "' does not have correct format")) in
  do _config <~ getattr_dict self "_config" in
  set_ip _config value.

Definition GuardedConfig_port_getter (dot_port : value -> M value)
    (self : value) : M value :=
  do _config <~ getattr_dict self "_config" in
  dot_port _config.

Definition GuardedConfig_port_setter (E : externals)
    (set_port : value -> value -> M unit) (self value : value) : M unit :=
  do _ <~ assert_ (isinstance_int value) None in
  do _ <~ assert_ (range_contains _port_min (_port_max + 1) value)
       (Some ("port " +:+ py_str E value +:+ " is not in valid range")) in
  do _config <~ getattr_dict self "_config" in
  set_port _config value.

Definition recursion_error {A} : M A :=
  raise (Exn RecursionError
           (Some "maximum recursion depth exceeded while calling a Python object")).

(** [v.ip], with [fuel] frames left for property calls. *)
Fixpoint dot_ip (fuel : nat) (v : value) : M value :=
  fun w =>
    match class_of w v with
    | Some GuardedConfig =>
        match fuel with
        | O => recursion_error w
        | S n => GuardedConfig_ip_getter (dot_ip n) v w
        end
    | _ => getattr_dict v "ip" w
    end.

(** [v.port] *)
Fixpoint dot_port (fuel : nat) (v : value) : M value :=
  fun w =>
    match class_of w v with
    | Some GuardedConfig =>
        match fuel with
        | O => recursion_error w
        | S n => GuardedConfig_port_getter (dot_port n) v w
        end
    | _ => getattr_dict v "port" w
    end.

(** [v.ip = x] *)
Fixpoint set_ip (E : externals) (fuel : nat) (v x : value) : M unit :=
  fun w =>
    match class_of w v with
    | Some GuardedConfig =>
        match fuel with
        | O => recursion_error w
        | S n => GuardedConfig_ip_setter E (set_ip E n) v x w
        end
    | _ => setattr_dict v "ip" x w
    end.

(** [v.port = x] *)
Fixpoint set_port (E : externals) (fuel : nat) (v x : value) : M unit :=
  fun w =>
    match class_of w v with
    | Some GuardedConfig =>
        match fuel with
        | O => recursion_error w
        | S n => GuardedConfig_port_setter E (set_port E n) v x w
        end
    | _ => setattr_dict v "port" x w
    end.

(** [setattr(v, name, x)]: a property of the class of [v] comes before
    its instance dictionary. *)
Definition setattr (E : externals) (fuel : nat) (v : value) (name : string)
    (x : value) : M unit :=
  if String.eqb name "ip" then set_ip E fuel v x
  else if String.eqb name "port" then set_port E fuel v x
  else setattr_dict v name x.

(** [GuardedConfig(config)] *)
Definition GuardedConfig___init__ (config : value) : M value :=
  do l <~ alloc (Instance GuardedConfig [("_config", config)]) in
  ret (VObj l).

(** [ConfigWrapper.__repr__], inherited by [GuardedConfig]. *)
Definition ConfigWrapper___repr__ (E : externals) (fuel : nat)
    (self : value) : M string :=
  do name <~ (fun w => ret (type_name w self) w) in
  do ip <~ dot_ip fuel self in
  do port <~ dot_port fuel self in
  ret (name +:+ "(ip='" +:+ py_str E ip +:+ "', port=" +:+ py_str E port +:+ ")").

(** ** class Config *)

(** [Config(ip, port)], the [__init__] the dataclass decorator writes. *)
Definition Config___init__ (ip port : value) : M value :=
  do l <~ alloc (Instance Config [("ip", ip); ("port", port)]) in
  ret (VObj l).

(** ** The parsers *)

(** [v.keys()] *)
Definition dot_keys (v : value) : M (list value) :=
  match v with
  | VDict d => ret (map fst d)
  | _ => no_attribute v "keys"
  end.

(** [v.__dict__.keys()] *)
Definition dict_keys (v : value) : M (list string) :=
  fun w => match v with
           | VObj l =>
               match heap w !! l with
               | Some o => (inr (map fst (dict o)), w)
               | None => no_attribute v "__dict__" w
               end
           | _ => no_attribute v "__dict__" w
           end.

(** [k in keys], for a view whose keys are all strings: only an equal
    string is found. *)
Definition key_in (k : value) (keys : list string) : bool :=
  match k with
  | VStr s => bool_decide (s ∈ keys)
  | _ => false
  end.

(** [a != b] on two key views: they are equal when they have the same
    size and every key of [a] is in [b]. *)
Definition keys_ne (a : list value) (b : list string) : bool :=
  negb ((length a =? length b)%nat && forallb (fun k => key_in k b) a).

Fixpoint dict_getitem (d : list (value * value)) (key : string) : option value :=
  match d with
  | [] => None
  | (VStr s, x) :: d' => if String.eqb s key then Some x else dict_getitem d' key
  | _ :: d' => dict_getitem d' key
  end.

(** [v[key]] for a string [key] *)
Definition getitem (v : value) (key : string) : M value :=
  match v with
  | VDict d =>
      match dict_getitem d key with
      | Some x => ret x
      | None => raise (Exn KeyError (Some ("'" +:+ key +:+ "'")))
      end
  | _ => raise (Exn TypeError (Some "object is not subscriptable by a str"))
  end.

Fixpoint for_each {A} (l : list A) (body : A -> M unit) : M unit :=
  match l with
  | [] => ret tt
  | x :: l' => do _ <~ body x in for_each l' body
  end.

(** How the [try] block ends: by its [return], or by reaching its end
    with [config] bound. *)
Inductive completion : Type :=
| Returned (r : value)
| Fell (config : value).

(** The [try] block the two parsers share, up to the deserialiser
    [loads].  Leaving the [with] block closes the file, which was opened
    for reading: nothing of it is observed afterwards. *)
Definition import_config_try (E : externals) (fuel : nat)
    (loads : string -> exn + value) (path : string) : M completion :=
  do f <~ lift (open_ E path) in
  do config <~ Config___init__ VNone VNone in
  do text <~ lift (read E f) in
  do json_ <~ lift (loads text) in
  do ks <~ dot_keys json_ in
  do cks <~ dict_keys config in
  if keys_ne ks cks then ret (Returned VNone)
  else
    do fields <~ dict_keys config in
    do _ <~ for_each fields (fun key =>
         do x <~ getitem json_ key in
         setattr E fuel config key x) in
    ret (Fell config).

(** The [except Exception as e] handler. *)
Definition import_config_except (e : exn) : M completion :=
  do _ <~ print ("import_config(), Exception, e: " +:+ exn_str e) in
  ret (Returned VNone).

(** The body the two parsers share. *)
Definition import_config_with (E : externals) (fuel : nat)
    (loads : string -> exn + value) (path : string) : M value :=
  do c <~ try_except_Exception
            (import_config_try E fuel loads path) import_config_except in
  match c with
  | Returned r => ret r
  | Fell config => ret config
  end.

(** [JsonConfigParser.import_config(path)] *)
Definition JsonConfigParser_import_config (E : externals) (fuel : nat)
    (path : string) : M value :=
  import_config_with E fuel (json_loads E) path.

(** [YamlConfigParser.import_config(path)] *)
Definition YamlConfigParser_import_config (E : externals) (fuel : nat)
    (path : string) : M value :=
  import_config_with E fuel (yaml_load E) path.

(** ** A sample environment

    A file system with two JSON files and the deserialisers' results on
    their texts; used to run the definitions on concrete inputs. *)

Definition dq : string := String (ascii_of_nat 34) "".

(** [{"ip": "1.2.3.4", "port": 80}] *)
Definition sample_text : string :=
  "{" +:+ dq +:+ "ip" +:+ dq +:+ ": " +:+ dq +:+ "1.2.3.4" +:+ dq +:+ ", "
  +:+ dq +:+ "port" +:+ dq +:+ ": 80}".

(** [{"ip": "1.2.3.4", "port": 80, "extra": 1}] *)
Definition sample_text_extra : string :=
  "{" +:+ dq +:+ "ip" +:+ dq +:+ ": " +:+ dq +:+ "1.2.3.4" +:+ dq +:+ ", "
  +:+ dq +:+ "port" +:+ dq +:+ ": 80, " +:+ dq +:+ "extra" +:+ dq +:+ ": 1}".

Definition sample_mapping : list (value * value) :=
  [(VStr "ip", VStr "1.2.3.4"); (VStr "port", VInt 80)].

Definition sample_mapping_extra : list (value * value) :=
  [(VStr "ip", VStr "1.2.3.4"); (VStr "port", VInt 80); (VStr "extra", VInt 1)].

Definition sample_open (path : string) : exn + file :=
  if String.eqb path "config.json" then inr 3%nat
  else if String.eqb path "extra.json" then inr 4%nat
  else inl (Exn OSError (Some ("[Errno 2] No such file or directory: '" +:+ path +:+ "'"))).

Definition sample_read (f : file) : exn + string :=
  match f with
  | 3%nat => inr sample_text
  | 4%nat => inr sample_text_extra
  | _ => inl (Exn ValueError (Some "I/O operation on closed file."))
  end.

Definition sample_json_loads (text : string) : exn + value :=
  if String.eqb text sample_text then inr (VDict sample_mapping)
  else if String.eqb text sample_text_extra then inr (VDict sample_mapping_extra)
  else inl (Exn ValueError (Some "Expecting value: line 1 column 1 (char 0)")).

(** [yaml.load] called without a [Loader], where the library requires one. *)
Definition sample_yaml_load (text : string) : exn + value :=
  inl (Exn TypeError (Some "load() missing 1 required positional argument: 'Loader'")).

Definition sample_externals : externals :=
  Externals (fun _ => "...") sample_open sample_read sample_json_loads sample_yaml_load.

(** A heap with a [Config] at location 1 and a [GuardedConfig] around it
    at location 2. *)
Definition sample_config : instance :=
  Instance Config [("ip", VStr "10.0.0.1"); ("port", VInt 8080)].

Definition sample_world : world :=
  World (<[2%positive := Instance GuardedConfig [("_config", VObj 1%positive)]]>
           (<[1%positive := sample_config]> ∅)) [].

Definition empty_world : world := World ∅ [].

(** ** Vocabulary of the statements *)

(** The three ways a guarded assignment fails.  Each is the
    [AssertionError] of one [assert] of a setter; they are told apart
    by the assertion that raised them.  The specification names them
    TypeError, FormatError and RangeError. *)
Definition type_failure : exn := Exn AssertionError None.

Definition format_failure (E : externals) (value : value) : exn :=
  Exn AssertionError
    (Some ("ip '" +:+ py_str E value +:+ "' does not have correct format")).

Definition range_failure (E : externals) (value : value) : exn :=
  Exn AssertionError
    (Some ("port " +:+ py_str E value +:+ " is not in valid range")).

(** [wraps w n v l]: the value [v] reaches the [Config] instance at [l]
    through [n] nested [GuardedConfig] wrappers. *)
Inductive wraps (w : world) : nat -> value -> loc -> Prop :=
| wraps_config l o :
    heap w !! l = Some o -> cls o = Config ->
    wraps w 0 (VObj l) l
| wraps_guard n g o c l :
    heap w !! g = Some o -> cls o = GuardedConfig ->
    dict_get (dict o) "_config" = Some c ->
    wraps w n c l ->
    wraps w (S n) (VObj g) l.

(** The world after [name] is written in the instance dictionary of the
    object at [l]. *)
Definition write_field (w : world) (l : loc) (name : string) (x : value) : world :=
  match heap w !! l with
  | Some o =>
      World (<[l := Instance (cls o) (dict_set (dict o) name x)]> (heap w)) (stdout w)
  | None => w
  end.

(** The field [name] of the object at [l], read from its dictionary. *)
Definition field (w : world) (l : loc) (name : string) : option value :=
  o ← heap w !! l; dict_get (dict o) name.


(** A statement whose exceptions all derive from [Exception]. *)
Definition raises_Exception_only {A} (m : M A) : Prop :=
  forall w e w', m w = (inl e, w') -> is_Exception (exn_cls e) = true.

(** An operation of the environment that fails only with exceptions
    deriving from [Exception]. *)
Definition fails_with_Exception_only {A B} (f : A -> exn + B) : Prop :=
  forall a e, f a = inl e -> is_Exception (exn_cls e) = true.

(** The key set of a mapping is exactly {ip, port}. *)
Definition keys_are_ip_port (d : list (value * value)) : Prop :=
  forall k, k ∈ map fst d <-> k = VStr "ip" \/ k = VStr "port".

(** The world [import_config] leaves when it returns before populating:
    the unpopulated [Config(None, None)] is in the heap, unreachable. *)
Definition with_blank_config (w : world) : world :=
  World (<[fresh (dom (heap w)) := Instance Config [("ip", VNone); ("port", VNone)]]>
           (heap w)) (stdout w).

(** The world after the handler of [import_config] printed the
    exception [e]. *)
Definition logged (w : world) (e : exn) : world :=
  World (heap w) (stdout w ++ ["import_config(), Exception, e: " +:+ exn_str e]).

(** ** The rest of the module *)

(** [s.endswith(suffix)]: some tail of [s] is [suffix]. *)
Fixpoint endswith (s suffix : string) : bool :=
  String.eqb s suffix ||
  match s with
  | EmptyString => false
  | String _ s' => endswith s' suffix
  end.

(** [JsonConfigParser.is_file_compatible(path)], with [isfile] for
    [os.path.isfile]. *)
Definition JsonConfigParser_is_file_compatible (isfile : string -> bool)
    (path : string) : bool :=
  isfile path && endswith path ".json".

(** [YamlConfigParser.is_file_compatible(path)] *)
Definition YamlConfigParser_is_file_compatible (isfile : string -> bool)
    (path : string) : bool :=
  isfile path && endswith path ".yaml".

(** The two concrete parser classes, whose instances carry no state. *)
Inductive parser_class : Type := JsonConfigParser | YamlConfigParser.

(** [isinstance(parser, ConfigParser)]: both classes derive from
    [ConfigParser]. *)
Definition isinstance_ConfigParser (parser : parser_class) : bool :=
  match parser with
  | JsonConfigParser => true
  | YamlConfigParser => true
  end.

(** [isinstance(v, Config)]: [ConfigWrapper] is registered as a virtual
    subclass of [Config], and [GuardedConfig] derives from it. *)
Definition isinstance_Config (v : value) : M bool :=
  fun w => (inr (match class_of w v with
                 | Some Config => true
                 | Some GuardedConfig => true
                 | None => false
                 end), w).

(** [try: body / except AssertionError as _: handler] *)
Definition try_except_AssertionError {A} (body : M A) (handler : M A) : M A :=
  fun w => match body w with
           | (inl e, w') =>
               match exn_cls e with
               | AssertionError => handler w'
               | _ => (inl e, w')
               end
           | (inr a, w') => (inr a, w')
           end.

(** [repr(v)]; [builtin_repr] is the interpreter's [repr] of strings,
    floats, containers and instances. *)
Definition py_repr (builtin_repr : value -> string) (v : value) : string :=
  match v with
  | VNone => "None"
  | VBool true => "True"
  | VBool false => "False"
  | VInt z => pretty z
  | _ => builtin_repr v
  end.

(** [Config.__repr__], the one the dataclass decorator writes. *)
Definition Config___repr__ (builtin_repr : value -> string) (self : value)
    : M string :=
  do ip <~ getattr_dict self "ip" in
  do port <~ getattr_dict self "port" in
  ret ("Config(ip=" +:+ py_repr builtin_repr ip +:+ ", port="
       +:+ py_repr builtin_repr port +:+ ")").

(** [print(v)]: an instance is printed through the [__repr__] of its
    class. *)
Definition print_value (E : externals) (builtin_repr : value -> string)
    (fuel : nat) (v : value) : M unit :=
  do s <~ (fun w => match class_of w v with
                    | Some Config => Config___repr__ builtin_repr v w
                    | Some GuardedConfig => ConfigWrapper___repr__ E fuel v w
                    | None => ret (py_str E v) w
                    end) in
  print s.

(** [main()] *)
Definition main (E : externals) (builtin_repr : value -> string) (fuel : nat)
    : M unit :=
  let parsers := [JsonConfigParser; YamlConfigParser] in
  do _ <~ for_each parsers (fun parser =>
       assert_ (isinstance_ConfigParser parser) None) in
  let import_path := "abc_example/config.yaml" in
  do config <~ YamlConfigParser_import_config E fuel import_path in
  do _ <~ set_ip E fuel config (VStr "123.123.123.123") in
  do _ <~ print_value E builtin_repr fuel config in
  do guarded_config <~ GuardedConfig___init__ config in
  do _ <~ try_except_AssertionError
            (set_ip E fuel guarded_config (VStr "localhost")) (ret tt) in
  do _ <~ set_port E fuel guarded_config (VInt 6321) in
  do _ <~ set_ip E fuel guarded_config (VStr "127.0.0.1") in
  do _ <~ print_value E builtin_repr fuel guarded_config in
  do b <~ isinstance_Config guarded_config in
  print ("guarded_config is an instance of Config, " +:+ py_str E (VBool b)).

(** ** A second sample environment

    The file [main] reads holds a YAML mapping, and [yaml.load] accepts
    a call without a [Loader]. *)

Definition demo_mapping : list (value * value) :=
  [(VStr "port", VInt 80); (VStr "ip", VStr "192.168.0.1")].

Definition demo_externals : externals :=
  Externals (fun _ => "...")
    (fun path => if String.eqb path "abc_example/config.yaml" then inr 5%nat
                 else inl (Exn OSError (Some "[Errno 2] No such file or directory")))
    (fun f => inr "{port: 80, ip: 192.168.0.1}")
    sample_json_loads
    (fun text => inr (VDict demo_mapping)).

Definition demo_repr (v : value) : string :=
  match v with
  | VStr s => "'" +:+ s +:+ "'"
  | _ => "..."
  end.

(** The sample heap with a second wrapper, at location 3, around the
    wrapper at location 2. *)
Definition twice_wrapped_world : world :=
  World (<[3%positive := Instance GuardedConfig [("_config", VObj 2%positive)]]>
           (heap sample_world)) [].

(** An environment whose JSON file holds a list. *)
Definition list_externals : externals :=
  Externals (fun _ => "...") (fun _ => inr 0%nat) (fun _ => inr "[1, 2]")
    (fun _ => inr (VList [VInt 1; VInt 2])) sample_yaml_load.

(** [len(s)], the number of characters of the text: the bytes of the
    UTF-8 encoding that start a character, that is all but the
    continuation bytes 10xxxxxx. *)
Definition is_continuation_byte (c : ascii) : bool :=
  (128 <=? nat_of_ascii c)%nat && (nat_of_ascii c <? 192)%nat.

Fixpoint count_chars (bytes : list ascii) : nat :=
  match bytes with
  | [] => 0
  | c :: rest =>
      (if is_continuation_byte c then 0 else 1) + count_chars rest
  end.

Definition py_len (s : string) : nat := count_chars (list_ascii_of_string s).

(** ** More vocabulary *)

(** Every object of [w] is in [w'], unchanged. *)
Definition heap_extends (w w' : world) : Prop :=
  forall l o, heap w !! l = Some o -> heap w' !! l = Some o.

(** The two worlds hold the same objects, except maybe at [l]. *)
Definition same_elsewhere (l : loc) (w w' : world) : Prop :=
  forall l', l' <> l -> heap w' !! l' = heap w !! l'.

(** The statement raises an [AssertionError] in the world [w]. *)
Definition raises_AssertionError {A} (m : M A) (w : world) : Prop :=
  exists e w', m w = (inl e, w') /\ exn_cls e = AssertionError.

(** The worlds [import_config] can end in: the objects that were there
    are untouched and at most one line is printed. *)
Inductive import_leaves (w : world) : world -> Prop :=
| leaves_quiet w1 :
    same_elsewhere (fresh (dom (heap w))) w w1 -> stdout w1 = stdout w ->
    import_leaves w w1
| leaves_logged w1 e :
    same_elsewhere (fresh (dom (heap w))) w w1 -> stdout w1 = stdout w ->
    import_leaves w (logged w1 e).


(** * Properties *)

(** ** The pattern and the matcher *)

Lemma in_flat_map_iff {A B} (f : A -> list B) (l : list A) (y : B) :
  In y (flat_map f l) <-> exists x, In x l /\ In y (f x).
Proof. apply in_flat_map. Qed.

(** [rep] enumerates exactly the remainders after [k] iterations,
    for [m <= k <= n]. *)
Lemma rep_spec (step : list ascii -> list (list ascii)) (L : list ascii -> Prop)
    (Hstep : forall s rest, In rest (step s) <-> exists p, s = p ++ rest /\ L p)
    (n m : nat) (s rest : list ascii) :
  In rest (rep step m n s) <->
  exists k p, (m <= k <= n)%nat /\ s = p ++ rest /\ lang_rep L k p.
Proof.
  revert m s. induction n as [|n IH]; intros m s; simpl.
  - destruct m; simpl.
    + split.
      * intros [->|[]]. exists 0%nat, []. simpl. auto with lia.
      * intros (k & p & Hk & -> & Hp). assert (k = 0%nat) as -> by lia.
        simpl in Hp. subst p. now left.
    + split; [intros []|]. intros (k & _ & Hk & _). lia.
  - destruct m as [|m].
    + rewrite in_app_iff, in_flat_map_iff. split.
      * intros [(mid & Hmid & Hrest)|[->|[]]].
        -- apply Hstep in Hmid as (p & -> & Hp).
           apply IH in Hrest as (k & q & Hk & -> & Hq).
           exists (S k), (p ++ q). split; [lia|]. split.
           ++ now rewrite <- app_assoc.
           ++ simpl. eauto.
        -- exists 0%nat, []. simpl. auto with lia.
      * intros (k & p & Hk & -> & Hp). destruct k as [|k]; simpl in Hp.
        -- subst p. right. now left.
        -- destruct Hp as (u & v & -> & Hu & Hv). left.
           exists (v ++ rest). split.
           ++ apply Hstep. exists u. now rewrite <- app_assoc.
           ++ apply IH. exists k, v. auto with lia.
    + rewrite in_flat_map_iff. split.
      * intros (mid & Hmid & Hrest).
        apply Hstep in Hmid as (p & -> & Hp).
        apply IH in Hrest as (k & q & Hk & -> & Hq).
        exists (S k), (p ++ q). split; [lia|]. split.
        -- now rewrite <- app_assoc.
        -- simpl. eauto.
      * intros (k & p & Hk & -> & Hp). destruct k as [|k]; [lia|].
        simpl in Hp. destruct Hp as (u & v & -> & Hu & Hv).
        exists (v ++ rest). split.
        -- apply Hstep. exists u. now rewrite <- app_assoc.
        -- apply IH. exists k, v. auto with lia.
Qed.

(** The matcher finds a remainder exactly when a prefix is in the
    language of the pattern. *)
Lemma rmatch_spec (r : regex) (s rest : list ascii) :
  In rest (rmatch r s) <-> exists p, s = p ++ rest /\ lang r p.
Proof.
  revert s rest. induction r as [lo hi|a|r IH m n|r1 IH1 r2 IH2];
    intros s rest; simpl.
  - destruct s as [|c s']; simpl.
    + split; [intros []|]. intros (p & Hp & c & -> & _). discriminate.
    + destruct (in_range lo hi c) eqn:Hc; simpl.
      * split.
        -- intros [->|[]]. exists [c]. eauto.
        -- intros (p & Hp & c' & -> & _). simpl in Hp. left. congruence.
      * split; [intros []|]. intros (p & Hp & c' & -> & Hc').
        simpl in Hp. congruence.
  - destruct s as [|c s']; simpl.
    + split; [intros []|]. intros (p & Hp & ->). discriminate.
    + destruct (Ascii.eqb a c) eqn:Hc; simpl.
      * apply Ascii.eqb_eq in Hc as ->. split.
        -- intros [->|[]]. exists [c]. eauto.
        -- intros (p & Hp & ->). simpl in Hp. left. congruence.
      * apply Ascii.eqb_neq in Hc. split; [intros []|].
        intros (p & Hp & ->). simpl in Hp. congruence.
  - rewrite (rep_spec (rmatch r) (lang r) IH). split.
    + intros (k & p & Hk & Hs & Hp). eauto.
    + intros (p & Hs & k & Hk & Hp). eauto.
  - rewrite in_flat_map_iff. split.
    + intros (mid & Hmid & Hrest).
      apply IH1 in Hmid as (p & -> & Hp).
      apply IH2 in Hrest as (q & -> & Hq).
      exists (p ++ q). split; [now rewrite <- app_assoc|eauto].
    + intros (p & -> & u & v & -> & Hu & Hv). exists (v ++ rest). split.
      * apply IH1. exists u. now rewrite <- app_assoc.
      * apply IH2. eauto.
Qed.

(** ** What the IPv4 pattern accepts *)

Lemma lang_rep_digits (k : nat) (g : list ascii) :
  lang_rep (lang (Range "0" "9")) k g <->
  length g = k /\ Forall (fun c => is_digit c = true) g.
Proof.
  revert g. induction k as [|k IH]; intros g; simpl.
  - split.
    + intros ->. split; [reflexivity|constructor].
    + intros [Hlen _]. now destruct g.
  - split.
    + intros (u & v & -> & (c & -> & Hc) & Hv).
      apply IH in Hv as [Hlen Hall]. simpl. split; [now rewrite Hlen|].
      constructor; assumption.
    + intros [Hlen Hall]. destruct g as [|c g]; [discriminate|].
      inversion Hall as [|? ? Hc Hg]; subst.
      exists [c], g. split; [reflexivity|]. split; [now exists c|].
      apply IH. simpl in Hlen. split; [lia|assumption].
Qed.

Lemma lang_digits (g : list ascii) :
  lang (Repeat (Range "0" "9") 1 3) g <-> digit_group g.
Proof.
  unfold digit_group. simpl. split.
  - intros (k & Hk & Hg). apply lang_rep_digits in Hg as [<- Hall]. auto.
  - intros [Hlen Hall]. exists (length g). split; [assumption|].
    apply lang_rep_digits. auto.
Qed.

Lemma lang_ipv4 (w : list ascii) : lang _ipv4_regex w <-> dotted_quad w.
Proof.
  unfold dotted_quad. split.
  - intros (g1 & v1 & -> & H1 & d1 & v2 & -> & -> & g2 & v3 & -> & H2 &
            d2 & v4 & -> & -> & g3 & v5 & -> & H3 & d3 & g4 & -> & -> & H4).
    exists g1, g2, g3, g4.
    repeat split; try (apply lang_digits; assumption); reflexivity.
  - intros (g1 & g2 & g3 & g4 & -> & H1 & H2 & H3 & H4).
    apply lang_digits in H1, H2, H3, H4.
    exists g1, ("."%char :: g2 ++ "."%char :: g3 ++ "."%char :: g4).
    repeat split; try assumption.
    exists ["."%char], (g2 ++ "."%char :: g3 ++ "."%char :: g4).
    repeat split.
    exists g2, ("."%char :: g3 ++ "."%char :: g4). repeat split; try assumption.
    exists ["."%char], (g3 ++ "."%char :: g4). repeat split.
    exists g3, ("."%char :: g4). repeat split; try assumption.
    exists ["."%char], g4. repeat split; assumption.
Qed.

Lemma list_ascii_of_string_app (a b : string) :
  list_ascii_of_string (a +:+ b) = list_ascii_of_string a ++ list_ascii_of_string b.
Proof. induction a as [|c a IH]; simpl; [reflexivity|now rewrite IH]. Qed.

(** [re.match] with the IPv4 pattern finds a match exactly on the
    strings that start with a dotted quad. *)
Lemma re_match_ipv4_iff (s : string) :
  is_Some (re_match _ipv4_regex s) <-> has_dotted_quad_prefix s.
Proof.
  unfold re_match, has_dotted_quad_prefix, is_dotted_quad.
  destruct (rmatch _ipv4_regex (list_ascii_of_string s)) as [|rest l] eqn:Hm.
  - split; [intros [? [=]]|]. intros (q & r & Hq & ->).
    assert (In (list_ascii_of_string r)
              (rmatch _ipv4_regex (list_ascii_of_string (q +:+ r)))) as Hin.
    { apply rmatch_spec. exists (list_ascii_of_string q).
      split; [apply list_ascii_of_string_app|now apply lang_ipv4]. }
    rewrite Hm in Hin. destruct Hin.
  - split; [intros _|eauto].
    assert (In rest (rmatch _ipv4_regex (list_ascii_of_string s))) as Hin
      by (rewrite Hm; now left).
    apply rmatch_spec in Hin as (p & Hs & Hp).
    exists (string_of_list_ascii p), (string_of_list_ascii rest). split.
    + rewrite list_ascii_of_string_of_list_ascii. now apply lang_ipv4.
    + rewrite <- (string_of_list_ascii_of_string s), Hs.
      clear. induction p as [|c p IH]; simpl; [reflexivity|now rewrite IH].
Qed.

Lemma re_match_ipv4_None (s : string) :
  ~ has_dotted_quad_prefix s -> re_match _ipv4_regex s = None.
Proof.
  intros Hno. destruct (re_match _ipv4_regex s) eqn:Hm; [|reflexivity].
  exfalso. apply Hno, re_match_ipv4_iff. rewrite Hm. eauto.
Qed.

(** A dotted quad is its own prefix. *)
Lemma dotted_quad_has_prefix (s : string) :
  is_dotted_quad s -> has_dotted_quad_prefix s.
Proof.
  intros Hs. exists s, "". split; [assumption|].
  clear. induction s as [|c s IH]; [reflexivity|].
  change (String c s = String c (s +:+ "")). now f_equal.
Qed.

(** ** Instance dictionaries and the heap *)

Lemma dict_get_set_eq (d : list (string * value)) (k : string) (x : value) :
  dict_get (dict_set d k x) k = Some x.
Proof.
  induction d as [|[k' v'] d IH]; simpl.
  - now rewrite String.eqb_refl.
  - destruct (String.eqb k' k) eqn:Hk; simpl; now rewrite Hk.
Qed.

Lemma class_of_obj (w : world) (l : loc) (o : instance) :
  heap w !! l = Some o -> class_of w (VObj l) = Some (cls o).
Proof. intros H. simpl. now rewrite H. Qed.

Lemma getattr_dict_obj (w : world) (l : loc) (o : instance) (name : string) (x : value) :
  heap w !! l = Some o -> dict_get (dict o) name = Some x ->
  getattr_dict (VObj l) name w = (inr x, w).
Proof. intros Ho Hx. unfold getattr_dict. now rewrite Ho, Hx. Qed.

Lemma setattr_dict_obj (w : world) (l : loc) (o : instance) (name : string) (x : value) :
  heap w !! l = Some o ->
  setattr_dict (VObj l) name x w = (inr tt, write_field w l name x).
Proof. intros Ho. unfold setattr_dict, write_field. now rewrite Ho. Qed.

Lemma field_write_field (w : world) (l : loc) (o : instance) (name : string) (x : value) :
  heap w !! l = Some o -> field (write_field w l name x) l name = Some x.
Proof.
  intros Ho. unfold field, write_field. rewrite Ho. simpl.
  rewrite lookup_insert_eq. simpl. apply dict_get_set_eq.
Qed.

Lemma getattr_dict_write_field (w : world) (l : loc) (o : instance) (name : string) (x : value) :
  heap w !! l = Some o ->
  getattr_dict (VObj l) name (write_field w l name x)
  = (inr x, write_field w l name x).
Proof.
  intros Ho. unfold getattr_dict, write_field. rewrite Ho. simpl.
  rewrite lookup_insert_eq. simpl. now rewrite dict_get_set_eq.
Qed.

(** Writing a field of a [Config] keeps every wrapper chain. *)
Lemma wraps_write_field (w : world) (n : nat) (v : value) (l l0 : loc)
    (name : string) (x : value) :
  wraps w n v l -> class_of w (VObj l0) = Some Config ->
  wraps (write_field w l0 name x) n v l.
Proof.
  intros Hw Hl0. simpl in Hl0.
  destruct (heap w !! l0) as [o0|] eqn:Ho0; [|discriminate].
  injection Hl0 as Hc0.
  induction Hw as [l o Ho Hc|n g o c l Ho Hc Hd Hw IH].
  - destruct (decide (l = l0)) as [->|Hne].
    + eapply wraps_config with (o := Instance (cls o0) (dict_set (dict o0) name x)).
      * unfold write_field. rewrite Ho0. simpl. apply lookup_insert_eq.
      * assumption.
    + apply wraps_config with (o := o); [|assumption].
      unfold write_field. rewrite Ho0. simpl. now rewrite lookup_insert_ne.
  - assert (g <> l0) as Hne by (intros ->; congruence).
    apply wraps_guard with (o := o) (c := c); try assumption.
    unfold write_field. rewrite Ho0. simpl. now rewrite lookup_insert_ne.
Qed.

Lemma wraps_class_of (w : world) (n : nat) (v : value) (l : loc) :
  wraps w n v l ->
  class_of w v = Some (match n with O => Config | S _ => GuardedConfig end).
Proof.
  intros [l0 o Ho Hc|n0 g o c l0 Ho Hc _ _]; simpl; rewrite Ho; simpl; congruence.
Qed.

Lemma wraps_target (w : world) (n : nat) (v : value) (l : loc) :
  wraps w n v l -> class_of w (VObj l) = Some Config.
Proof.
  induction 1 as [l o Ho Hc|]; [|assumption]. simpl. rewrite Ho. simpl. congruence.
Qed.

(** ** The guarded setters, case by case *)

Lemma ip_setter_eq (E : externals) (k : value -> value -> M unit)
    (self x : value) (w : world) :
  GuardedConfig_ip_setter E k self x w =
  match x with
  | VStr s =>
      if bool_decide (is_Some (re_match _ipv4_regex s))
      then (do c <~ getattr_dict self "_config" in k c x) w
      else (inl (format_failure E x), w)
  | _ => (inl type_failure, w)
  end.
Proof.
  destruct x; try reflexivity.
  unfold GuardedConfig_ip_setter, bind, assert_, re_match_value, ret, raise; simpl.
  now destruct (bool_decide _).
Qed.

Lemma port_setter_eq (E : externals) (k : value -> value -> M unit)
    (self x : value) (w : world) :
  GuardedConfig_port_setter E k self x w =
  if isinstance_int x
  then if range_contains _port_min (_port_max + 1) x
       then (do c <~ getattr_dict self "_config" in k c x) w
       else (inl (range_failure E x), w)
  else (inl type_failure, w).
Proof.
  unfold GuardedConfig_port_setter, bind, assert_, ret, raise.
  destruct (isinstance_int x); [|reflexivity].
  now destruct (range_contains _ _ x).
Qed.

Lemma set_ip_guard (E : externals) (n : nat) (v x : value) (w : world) :
  class_of w v = Some GuardedConfig ->
  set_ip E (S n) v x w = GuardedConfig_ip_setter E (set_ip E n) v x w.
Proof. intros H. simpl. now rewrite H. Qed.

Lemma set_port_guard (E : externals) (n : nat) (v x : value) (w : world) :
  class_of w v = Some GuardedConfig ->
  set_port E (S n) v x w = GuardedConfig_port_setter E (set_port E n) v x w.
Proof. intros H. simpl. now rewrite H. Qed.

Lemma set_ip_config (E : externals) (n : nat) (v x : value) (w : world) :
  class_of w v = Some Config -> set_ip E n v x w = setattr_dict v "ip" x w.
Proof. intros H. destruct n; simpl; now rewrite H. Qed.

Lemma set_port_config (E : externals) (n : nat) (v x : value) (w : world) :
  class_of w v = Some Config -> set_port E n v x w = setattr_dict v "port" x w.
Proof. intros H. destruct n; simpl; now rewrite H. Qed.

Lemma range_contains_int (z : Z) :
  range_contains _port_min (_port_max + 1) (VInt z)
  = bool_decide (_port_min <= z <= _port_max)%Z.
Proof.
  unfold range_contains, _port_min, _port_max. simpl.
  case_bool_decide; lia.
Qed.

(** ** Assignments through a chain of wrappers *)

Ltac enter_guard Ho Hc :=
  match goal with
  | |- context [set_ip ?E (S ?n) (VObj ?g) ?x ?w] =>
      rewrite (set_ip_guard E n (VObj g) x w)
        by (rewrite (class_of_obj _ _ _ Ho); congruence);
      rewrite ip_setter_eq
  | |- context [set_port ?E (S ?n) (VObj ?g) ?x ?w] =>
      rewrite (set_port_guard E n (VObj g) x w)
        by (rewrite (class_of_obj _ _ _ Ho); congruence);
      rewrite port_setter_eq
  end.

Lemma set_ip_chain (E : externals) (w : world) (n : nat) (v : value) (l : loc)
    (s : string) :
  wraps w n v l -> has_dotted_quad_prefix s ->
  forall fuel, (n <= fuel)%nat ->
  set_ip E fuel v (VStr s) w = (inr tt, write_field w l "ip" (VStr s)).
Proof.
  intros Hw Hs. induction Hw as [l o Ho Hc|n g o c l Ho Hc Hd Hw IH]; intros fuel Hf.
  - rewrite set_ip_config by (rewrite (class_of_obj _ _ _ Ho); congruence).
    now apply setattr_dict_obj with (o := o).
  - destruct fuel as [|fuel]; [lia|]. enter_guard Ho Hc.
    rewrite bool_decide_eq_true_2 by (now apply re_match_ipv4_iff).
    unfold bind. rewrite (getattr_dict_obj _ _ _ _ _ Ho Hd). apply IH. lia.
Qed.

Lemma set_port_chain (E : externals) (w : world) (n : nat) (v : value) (l : loc)
    (x : value) :
  wraps w n v l ->
  isinstance_int x = true -> range_contains _port_min (_port_max + 1) x = true ->
  forall fuel, (n <= fuel)%nat ->
  set_port E fuel v x w = (inr tt, write_field w l "port" x).
Proof.
  intros Hw Hi Hr. induction Hw as [l o Ho Hc|n g o c l Ho Hc Hd Hw IH]; intros fuel Hf.
  - rewrite set_port_config by (rewrite (class_of_obj _ _ _ Ho); congruence).
    now apply setattr_dict_obj with (o := o).
  - destruct fuel as [|fuel]; [lia|]. enter_guard Ho Hc. rewrite Hi, Hr.
    unfold bind. rewrite (getattr_dict_obj _ _ _ _ _ Ho Hd). apply IH. lia.
Qed.

(** A successful assignment wrote the value in the [Config] at the end
    of the chain, and the value passed the guard of every wrapper. *)
Lemma set_ip_success (E : externals) (w : world) (n : nat) (v : value) (l : loc) :
  wraps w n v l ->
  forall fuel x w', set_ip E fuel v x w = (inr tt, w') ->
  w' = write_field w l "ip" x /\
  (n <> 0%nat -> exists s, x = VStr s /\ has_dotted_quad_prefix s).
Proof.
  induction 1 as [l o Ho Hc|n g o c l Ho Hc Hd Hw IH]; intros fuel x w' Hset.
  - rewrite set_ip_config in Hset by (rewrite (class_of_obj _ _ _ Ho); congruence).
    rewrite (setattr_dict_obj _ _ _ _ _ Ho) in Hset. split; [congruence|easy].
  - destruct fuel as [|fuel].
    { simpl in Hset. rewrite Ho in Hset. simpl in Hset. rewrite Hc in Hset.
      discriminate. }
    revert Hset. enter_guard Ho Hc. destruct x; try discriminate.
    case_bool_decide as Hm; [|discriminate].
    unfold bind. rewrite (getattr_dict_obj _ _ _ _ _ Ho Hd). intros Hset.
    apply IH in Hset as [-> _]. split; [reflexivity|]. intros _.
    eexists. split; [reflexivity|]. now apply re_match_ipv4_iff.
Qed.

Lemma set_port_success (E : externals) (w : world) (n : nat) (v : value) (l : loc) :
  wraps w n v l ->
  forall fuel x w', set_port E fuel v x w = (inr tt, w') ->
  w' = write_field w l "port" x /\
  (n <> 0%nat ->
   isinstance_int x = true /\ range_contains _port_min (_port_max + 1) x = true).
Proof.
  induction 1 as [l o Ho Hc|n g o c l Ho Hc Hd Hw IH]; intros fuel x w' Hset.
  - rewrite set_port_config in Hset by (rewrite (class_of_obj _ _ _ Ho); congruence).
    rewrite (setattr_dict_obj _ _ _ _ _ Ho) in Hset. split; [congruence|easy].
  - destruct fuel as [|fuel].
    { simpl in Hset. rewrite Ho in Hset. simpl in Hset. rewrite Hc in Hset.
      discriminate. }
    revert Hset. enter_guard Ho Hc.
    destruct (isinstance_int x) eqn:Hi; [|discriminate].
    destruct (range_contains _ _ x) eqn:Hr; [|discriminate].
    unfold bind. rewrite (getattr_dict_obj _ _ _ _ _ Ho Hd). intros Hset.
    apply IH in Hset as [-> _]. auto.
Qed.

(** An integer that passed the range check is a port number. *)
Lemma range_contains_port (x : value) :
  isinstance_int x = true -> range_contains _port_min (_port_max + 1) x = true ->
  exists z, int_value x = Some z /\ (0 <= z <= 65535)%Z.
Proof.
  unfold range_contains, _port_min, _port_max.
  destruct x as [|[]|z| | | | |]; try discriminate; simpl; intros _ Hr.
  - exists 1%Z. split; [reflexivity|lia].
  - exists 0%Z. split; [reflexivity|lia].
  - exists z. split; [reflexivity|lia].
Qed.

(** ** Reads through a chain of wrappers *)

Lemma dot_ip_chain (w : world) (n : nat) (v : value) (l : loc) :
  wraps w n v l -> forall fuel, (n <= fuel)%nat ->
  dot_ip fuel v w = getattr_dict (VObj l) "ip" w.
Proof.
  induction 1 as [l o Ho Hc|n g o c l Ho Hc Hd Hw IH]; intros fuel Hf.
  - destruct fuel; simpl; rewrite Ho; simpl; now rewrite Hc.
  - destruct fuel as [|fuel]; [lia|]. simpl. rewrite Ho. simpl. rewrite Hc.
    unfold GuardedConfig_ip_getter, bind.
    rewrite (getattr_dict_obj _ _ _ _ _ Ho Hd). apply IH. lia.
Qed.

Lemma dot_port_chain (w : world) (n : nat) (v : value) (l : loc) :
  wraps w n v l -> forall fuel, (n <= fuel)%nat ->
  dot_port fuel v w = getattr_dict (VObj l) "port" w.
Proof.
  induction 1 as [l o Ho Hc|n g o c l Ho Hc Hd Hw IH]; intros fuel Hf.
  - destruct fuel; simpl; rewrite Ho; simpl; now rewrite Hc.
  - destruct fuel as [|fuel]; [lia|]. simpl. rewrite Ho. simpl. rewrite Hc.
    unfold GuardedConfig_port_getter, bind.
    rewrite (getattr_dict_obj _ _ _ _ _ Ho Hd). apply IH. lia.
Qed.

Lemma wraps_target_obj (w : world) (n : nat) (v : value) (l : loc) :
  wraps w n v l -> exists o, heap w !! l = Some o /\ cls o = Config.
Proof. induction 1 as [l o Ho Hc|]; eauto. Qed.

(** ** Deciding the shapes on concrete strings *)

Lemma is_dotted_quad_iff (s : string) :
  is_dotted_quad s <-> In [] (rmatch _ipv4_regex (list_ascii_of_string s)).
Proof.
  unfold is_dotted_quad. rewrite rmatch_spec. split.
  - intros Hq. exists (list_ascii_of_string s).
    split; [now rewrite app_nil_r|now apply lang_ipv4].
  - intros (p & Hs & Hp). rewrite app_nil_r in Hs. subst p. now apply lang_ipv4.
Qed.

Lemma no_prefix_of_no_match (s : string) :
  re_match _ipv4_regex s = None -> ~ has_dotted_quad_prefix s.
Proof. intros Hm Hp. apply re_match_ipv4_iff in Hp as [x Hx]. congruence. Qed.

Example localhost_no_match : ~ has_dotted_quad_prefix "localhost".
Proof. apply no_prefix_of_no_match. reflexivity. Qed.

Example three_groups_no_match : ~ has_dotted_quad_prefix "1.2.3".
Proof. apply no_prefix_of_no_match. reflexivity. Qed.

Example loopback_is_dotted_quad : is_dotted_quad "127.0.0.1".
Proof. apply is_dotted_quad_iff. vm_compute. auto. Qed.

(** Octets are not bounded by 255. *)
Example nines_is_dotted_quad : is_dotted_quad "999.999.999.999".
Proof. apply is_dotted_quad_iff. vm_compute. auto. Qed.

Example five_groups_not_dotted_quad : ~ is_dotted_quad "1.2.3.4.5".
Proof. rewrite is_dotted_quad_iff. vm_compute. intuition discriminate. Qed.

Lemma sample_wraps : wraps sample_world 1 (VObj 2%positive) 1%positive.
Proof.
  eapply wraps_guard with (c := VObj 1%positive); [reflexivity..|].
  eapply wraps_config with (o := sample_config); reflexivity.
Qed.

Lemma sample_guard : class_of sample_world (VObj 2%positive) = Some GuardedConfig.
Proof. reflexivity. Qed.

(** The three failures are told apart. *)
Lemma failures_distinct (E : externals) (v v' : value) :
  type_failure <> format_failure E v /\
  type_failure <> range_failure E v /\
  format_failure E v <> range_failure E v'.
Proof. repeat split; discriminate. Qed.

(** ** The guarded setters *)

(** What the format guard does refuse: a string that does not even
    start with four dot-separated groups of one to three digits.
    Assigning it to [ip] through a [GuardedConfig] fails with the format
    failure and leaves the world, hence the wrapped object's ip, as it
    was. *)
Lemma set_ip_rejects_bad_format (E : externals) (fuel : nat) (w : world)
    (self : value) (s : string) :
  class_of w self = Some GuardedConfig ->
  ~ has_dotted_quad_prefix s ->
  set_ip E (S fuel) self (VStr s) w = (inl (format_failure E (VStr s)), w).
Proof.
  intros Hself Hs. rewrite set_ip_guard by assumption. rewrite ip_setter_eq.
  rewrite (re_match_ipv4_None s Hs). reflexivity.
Qed.

Lemma set_ip_rejects_bad_format_witness :
  class_of sample_world (VObj 2%positive) = Some GuardedConfig /\
  ~ has_dotted_quad_prefix "localhost" /\
  set_ip sample_externals 1 (VObj 2%positive) (VStr "localhost") sample_world
  = (inl (Exn AssertionError (Some "ip 'localhost' does not have correct format")),
     sample_world).
Proof.
  split; [reflexivity|]. split; [exact localhost_no_match|].
  exact (set_ip_rejects_bad_format sample_externals 0 sample_world
           (VObj 2%positive) "localhost" sample_guard localhost_no_match).
Defined.

(** C1, where the code departs from it.  The string 1.2.3.4.5 is not
    four dot-separated groups of one to three digits, so it does not
    match the IPv4 pattern as a whole, and the setter, whose docstring
    says that it requires the IPv4 format, should refuse it with the
    format failure and leave the wrapped ip alone.  It does neither: the
    pattern is tried with [re.match], which stops after the fourth
    group, the assignment raises nothing, and the wrapped [Config],
    whose ip was 10.0.0.1, now holds 1.2.3.4.5. *)
Theorem set_ip_accepts_five_groups :
  ~ is_dotted_quad "1.2.3.4.5" /\
  field sample_world 1%positive "ip" = Some (VStr "10.0.0.1") /\
  set_ip sample_externals 1 (VObj 2%positive) (VStr "1.2.3.4.5") sample_world
  = (inr tt, write_field sample_world 1%positive "ip" (VStr "1.2.3.4.5")) /\
  set_ip sample_externals 1 (VObj 2%positive) (VStr "1.2.3.4.5") sample_world
  <> (inl (format_failure sample_externals (VStr "1.2.3.4.5")), sample_world) /\
  field (write_field sample_world 1%positive "ip" (VStr "1.2.3.4.5")) 1%positive "ip"
  = Some (VStr "1.2.3.4.5").
Proof.
  split; [exact five_groups_not_dotted_quad|].
  split; [reflexivity|]. split; [reflexivity|]. split; [|reflexivity].
  intros H. vm_compute in H. discriminate H.
Qed.



(** C3: through a [GuardedConfig], assigning a value that is not a
    string to [ip], or a value that is not an integer to [port], fails
    with the type failure (the specification's TypeError), whatever the
    later checks would have said; that failure is neither the format
    failure nor the range failure, so the type check came first. *)
Theorem setters_check_type_first (E : externals) (fuel : nat) (w : world)
    (self v : value) :
  class_of w self = Some GuardedConfig ->
  (isinstance_str v = false ->
     set_ip E (S fuel) self v w = (inl type_failure, w)) /\
  (isinstance_int v = false ->
     set_port E (S fuel) self v w = (inl type_failure, w)) /\
  (forall v', type_failure <> format_failure E v' /\
              type_failure <> range_failure E v').
Proof.
  intros Hself. split; [|split].
  - intros Hv. rewrite set_ip_guard by assumption. rewrite ip_setter_eq.
    destruct v; try reflexivity. discriminate.
  - intros Hv. rewrite set_port_guard by assumption. rewrite port_setter_eq.
    now rewrite Hv.
  - intros v'. split; discriminate.
Qed.

Lemma setters_check_type_first_witness :
  class_of sample_world (VObj 2%positive) = Some GuardedConfig /\
  set_ip sample_externals 1 (VObj 2%positive) (VInt 5) sample_world
  = (inl (Exn AssertionError None), sample_world) /\
  set_port sample_externals 1 (VObj 2%positive) (VStr "80") sample_world
  = (inl (Exn AssertionError None), sample_world).
Proof.
  split; [reflexivity|]. split.
  - apply (setters_check_type_first sample_externals 0 sample_world
             (VObj 2%positive) (VInt 5) sample_guard). reflexivity.
  - apply (setters_check_type_first sample_externals 0 sample_world
             (VObj 2%positive) (VStr "80") sample_guard). reflexivity.
Defined.

(** The float 5.0 is in [range(0, 65536)], and the port setter still
    refuses it: the type assertion runs before the range assertion. *)
Example float_port_rejected_by_type :
  range_contains _port_min (_port_max + 1) (VFloat (S754_finite false 5 0)) = true /\
  set_port sample_externals 1 (VObj 2%positive) (VFloat (S754_finite false 5 0))
    sample_world = (inl type_failure, sample_world).
Proof. split; reflexivity. Qed.

(** C4: for every string made of four groups of one to three digits
    separated by dots, whatever the value of each group, assigning it to
    [ip] through a [GuardedConfig] succeeds; reading [ip] back through
    the wrapper then gives exactly that string, and so does reading the
    ip field of the underlying [Config] directly. *)
Theorem set_ip_then_get_ip (E : externals) (fuel n : nat) (w : world)
    (self : value) (l : loc) (s : string) :
  wraps w (S n) self l -> (S n <= fuel)%nat -> is_dotted_quad s ->
  let w' := write_field w l "ip" (VStr s) in
  set_ip E fuel self (VStr s) w = (inr tt, w') /\
  dot_ip fuel self w' = (inr (VStr s), w') /\
  dot_ip fuel (VObj l) w' = (inr (VStr s), w') /\
  field w' l "ip" = Some (VStr s).
Proof.
  intros Hw Hf Hs w'.
  destruct (wraps_target_obj _ _ _ _ Hw) as (o & Ho & Hc).
  pose proof (wraps_target _ _ _ _ Hw) as Hl.
  pose proof (wraps_write_field w (S n) self l l "ip" (VStr s) Hw Hl) as Hw'.
  fold w' in Hw'. repeat split.
  - apply set_ip_chain with (n := S n);
      [assumption|now apply dotted_quad_has_prefix|assumption].
  - rewrite (dot_ip_chain w' (S n) self l Hw' fuel Hf).
    now apply getattr_dict_write_field with (o := o).
  - assert (wraps w' 0 (VObj l) l) as H0.
    { apply wraps_write_field; [|assumption]. now apply wraps_config with (o := o). }
    rewrite (dot_ip_chain w' 0 (VObj l) l H0 fuel) by lia.
    now apply getattr_dict_write_field with (o := o).
  - now apply field_write_field with (o := o).
Qed.

Lemma set_ip_then_get_ip_witness :
  wraps sample_world 1 (VObj 2%positive) 1%positive /\ (1 <= 1)%nat /\
  is_dotted_quad "999.999.999.999" /\
  let w' := write_field sample_world 1%positive "ip" (VStr "999.999.999.999") in
  set_ip sample_externals 1 (VObj 2%positive) (VStr "999.999.999.999") sample_world
  = (inr tt, w') /\
  dot_ip 1 (VObj 2%positive) w' = (inr (VStr "999.999.999.999"), w') /\
  dot_ip 1 (VObj 1%positive) w' = (inr (VStr "999.999.999.999"), w') /\
  field w' 1%positive "ip" = Some (VStr "999.999.999.999").
Proof.
  split; [exact sample_wraps|]. split; [lia|].
  split; [exact nines_is_dotted_quad|].
  exact (set_ip_then_get_ip sample_externals 1 0 sample_world (VObj 2%positive)
           1%positive "999.999.999.999" sample_wraps (le_n 1) nines_is_dotted_quad).
Defined.

(** The same round trip for [port]. *)
Lemma set_port_then_get_port (E : externals) (fuel n : nat) (w : world)
    (self : value) (l : loc) (z : Z) :
  wraps w (S n) self l -> (S n <= fuel)%nat -> (_port_min <= z <= _port_max)%Z ->
  let w' := write_field w l "port" (VInt z) in
  set_port E fuel self (VInt z) w = (inr tt, w') /\
  dot_port fuel self w' = (inr (VInt z), w') /\
  field w' l "port" = Some (VInt z).
Proof.
  intros Hw Hf Hz w'.
  destruct (wraps_target_obj _ _ _ _ Hw) as (o & Ho & Hc).
  pose proof (wraps_target _ _ _ _ Hw) as Hl.
  pose proof (wraps_write_field w (S n) self l l "port" (VInt z) Hw Hl) as Hw'.
  fold w' in Hw'. repeat split.
  - apply (set_port_chain E w (S n) self l (VInt z) Hw); [reflexivity| |assumption].
    rewrite range_contains_int. now apply bool_decide_eq_true_2.
  - rewrite (dot_port_chain w' (S n) self l Hw' fuel Hf).
    now apply getattr_dict_write_field with (o := o).
  - now apply field_write_field with (o := o).
Qed.

(** What a successful assignment through a [GuardedConfig] does
    guarantee: the field of the wrapped [Config] holds the value
    assigned, an assigned port is an integer of [0, 65535], and an
    assigned ip is a string that starts with a dotted quad, which is
    less than being one. *)
Lemma guarded_fields_valid (E : externals) (fuel n : nat) (w w' : world)
    (self : value) (l : loc) (x : value) :
  wraps w (S n) self l ->
  (set_ip E fuel self x w = (inr tt, w') ->
     field w' l "ip" = Some x /\
     exists s, x = VStr s /\ has_dotted_quad_prefix s) /\
  (set_port E fuel self x w = (inr tt, w') ->
     field w' l "port" = Some x /\
     exists z, int_value x = Some z /\ (0 <= z <= 65535)%Z).
Proof.
  intros Hw. destruct (wraps_target_obj _ _ _ _ Hw) as (o & Ho & Hc).
  split; intros Hset.
  - apply (set_ip_success E w (S n) self l Hw) in Hset as [-> Hx]. split.
    + now apply field_write_field with (o := o).
    + now apply Hx.
  - apply (set_port_success E w (S n) self l Hw) in Hset as [-> Hx]. split.
    + now apply field_write_field with (o := o).
    + destruct Hx as [Hi Hr]; [easy|]. now apply range_contains_port.
Qed.

Lemma guarded_fields_valid_witness :
  wraps sample_world 1 (VObj 2%positive) 1%positive /\
  set_ip sample_externals 1 (VObj 2%positive) (VStr "127.0.0.1") sample_world
  = (inr tt, write_field sample_world 1%positive "ip" (VStr "127.0.0.1")) /\
  field (write_field sample_world 1%positive "ip" (VStr "127.0.0.1")) 1%positive "ip"
  = Some (VStr "127.0.0.1") /\
  exists s, VStr "127.0.0.1" = VStr s /\ has_dotted_quad_prefix s.
Proof.
  split; [exact sample_wraps|].
  assert (set_ip sample_externals 1 (VObj 2%positive) (VStr "127.0.0.1") sample_world
          = (inr tt, write_field sample_world 1%positive "ip" (VStr "127.0.0.1")))
    as Hset by reflexivity.
  split; [exact Hset|].
  exact (proj1 (guarded_fields_valid sample_externals 1 0 sample_world _
                  (VObj 2%positive) 1%positive (VStr "127.0.0.1") sample_wraps) Hset).
Defined.

(** C5, where the code departs from it.  After the successful
    assignment of 127.0.0.1abc to [ip] through a [GuardedConfig], the ip
    field of the wrapped [Config] is 127.0.0.1abc, which is not a dotted
    quad: the invariant holds for the port (see [guarded_fields_valid])
    and fails for the ip, because [re.match] does not look at what
    follows the fourth group. *)
Theorem guarded_ip_not_dotted_quad :
  let w' := write_field sample_world 1%positive "ip" (VStr "127.0.0.1abc") in
  wraps sample_world 1 (VObj 2%positive) 1%positive /\
  set_ip sample_externals 1 (VObj 2%positive) (VStr "127.0.0.1abc") sample_world
  = (inr tt, w') /\
  field w' 1%positive "ip" = Some (VStr "127.0.0.1abc") /\
  dot_ip 1 (VObj 2%positive) w' = (inr (VStr "127.0.0.1abc"), w') /\
  ~ is_dotted_quad "127.0.0.1abc".
Proof.
  intros w'. split; [exact sample_wraps|].
  split; [reflexivity|]. split; [reflexivity|]. split; [reflexivity|].
  rewrite is_dotted_quad_iff. vm_compute. intuition discriminate.
Qed.

(** C10: the pattern is matched at the start of the string only and is
    not anchored at its end: for every string that begins with a dotted
    quad, whatever follows, assigning it to [ip] through a
    [GuardedConfig] succeeds and stores the whole string, unchanged, in
    the wrapped [Config]. *)
Theorem set_ip_accepts_prefix (E : externals) (fuel n : nat) (w : world)
    (self : value) (l : loc) (q rest : string) :
  wraps w (S n) self l -> (S n <= fuel)%nat -> is_dotted_quad q ->
  let w' := write_field w l "ip" (VStr (q +:+ rest)) in
  re_match _ipv4_regex (q +:+ rest) <> None /\
  set_ip E fuel self (VStr (q +:+ rest)) w = (inr tt, w') /\
  field w' l "ip" = Some (VStr (q +:+ rest)).
Proof.
  intros Hw Hf Hq w'.
  destruct (wraps_target_obj _ _ _ _ Hw) as (o & Ho & Hc).
  assert (has_dotted_quad_prefix (q +:+ rest)) as Hp by (exists q, rest; auto).
  repeat split.
  - apply re_match_ipv4_iff in Hp as [m Hm]. congruence.
  - now apply set_ip_chain with (n := S n).
  - now apply field_write_field with (o := o).
Qed.

Lemma set_ip_accepts_prefix_witness :
  wraps sample_world 1 (VObj 2%positive) 1%positive /\ (1 <= 1)%nat /\
  is_dotted_quad "127.0.0.1" /\
  set_ip sample_externals 1 (VObj 2%positive) (VStr "127.0.0.1abc") sample_world
  = (inr tt, write_field sample_world 1%positive "ip" (VStr "127.0.0.1abc")) /\
  field (write_field sample_world 1%positive "ip" (VStr "127.0.0.1abc")) 1%positive "ip"
  = Some (VStr "127.0.0.1abc").
Proof.
  split; [exact sample_wraps|]. split; [lia|].
  split; [exact loopback_is_dotted_quad|].
  exact (proj2 (set_ip_accepts_prefix sample_externals 1 0 sample_world
                  (VObj 2%positive) 1%positive "127.0.0.1" "abc"
                  sample_wraps (le_n 1) loopback_is_dotted_quad)).
Defined.

(** A fifth group after a dotted quad is stored too. *)
Example five_groups_accepted :
  set_ip sample_externals 1 (VObj 2%positive) (VStr "1.2.3.4.5") sample_world
  = (inr tt, write_field sample_world 1%positive "ip" (VStr "1.2.3.4.5")).
Proof. reflexivity. Qed.

(** ** Rendering *)




(** ** Which exceptions a statement can raise *)

Create HintDb exn_only.

Lemma reo_ret {A} (a : A) : raises_Exception_only (ret a).
Proof. intros w e w' [=]. Qed.

Lemma reo_raise {A} (e : exn) :
  is_Exception (exn_cls e) = true -> raises_Exception_only (@raise A e).
Proof. intros He w e' w' [= <- _]. assumption. Qed.

Lemma reo_bind {A B} (m : M A) (k : A -> M B) :
  raises_Exception_only m -> (forall a, raises_Exception_only (k a)) ->
  raises_Exception_only (bind m k).
Proof.
  intros Hm Hk w e w' H. unfold bind in H.
  destruct (m w) as [[e0|a] w0] eqn:Hmw.
  - injection H as <- <-. eapply Hm, Hmw.
  - eapply Hk, H.
Qed.

Lemma reo_lift {A B} (f : A -> exn + B) (a : A) :
  fails_with_Exception_only f -> raises_Exception_only (lift (f a)).
Proof.
  intros Hf w e w' H. unfold lift in H. destruct (f a) as [e0|b] eqn:Hfa.
  - injection H as <- _. eapply Hf, Hfa.
  - discriminate.
Qed.

Lemma reo_no_attribute {A} (v : value) (name : string) :
  raises_Exception_only (@no_attribute A v name).
Proof. intros w e w' [= <- _]. reflexivity. Qed.

Lemma reo_assert (cond : bool) (msg : option string) :
  raises_Exception_only (assert_ cond msg).
Proof. destruct cond; [apply reo_ret|now apply reo_raise]. Qed.

Lemma reo_getattr_dict (v : value) (name : string) :
  raises_Exception_only (getattr_dict v name).
Proof.
  intros w e w' H. unfold getattr_dict in H.
  repeat case_match; try discriminate; eapply (@reo_no_attribute value), H.
Qed.

Lemma reo_setattr_dict (v : value) (name : string) (x : value) :
  raises_Exception_only (setattr_dict v name x).
Proof.
  intros w e w' H. unfold setattr_dict in H.
  repeat case_match; try discriminate; eapply (@reo_no_attribute unit), H.
Qed.

Lemma reo_dict_keys (v : value) : raises_Exception_only (dict_keys v).
Proof.
  intros w e w' H. unfold dict_keys in H.
  repeat case_match; try discriminate; eapply (@reo_no_attribute (list string)), H.
Qed.

Lemma reo_dot_keys (v : value) : raises_Exception_only (dot_keys v).
Proof. destruct v; simpl; try apply reo_no_attribute. apply reo_ret. Qed.

Lemma reo_getitem (v : value) (key : string) : raises_Exception_only (getitem v key).
Proof.
  destruct v; simpl; try (now apply reo_raise).
  destruct (dict_getitem d key); [apply reo_ret|now apply reo_raise].
Qed.

Lemma reo_alloc (o : instance) : raises_Exception_only (alloc o).
Proof. intros w e w' [=]. Qed.

Lemma reo_print (line : string) : raises_Exception_only (print line).
Proof. intros w e w' [=]. Qed.

Lemma reo_re_match_value (r : regex) (v : value) :
  raises_Exception_only (re_match_value r v).
Proof. destruct v; simpl; try (now apply reo_raise). apply reo_ret. Qed.

#[local] Hint Resolve reo_ret reo_bind reo_no_attribute reo_assert
  reo_getattr_dict reo_setattr_dict reo_dict_keys reo_dot_keys reo_getitem
  reo_alloc reo_print reo_re_match_value : exn_only.

Lemma reo_ip_setter (E : externals) (k : value -> value -> M unit)
    (self x : value) :
  (forall c y, raises_Exception_only (k c y)) ->
  raises_Exception_only (GuardedConfig_ip_setter E k self x).
Proof.
  intros Hk. unfold GuardedConfig_ip_setter.
  repeat (apply reo_bind; [auto with exn_only|intros ?]). apply Hk.
Qed.

Lemma reo_port_setter (E : externals) (k : value -> value -> M unit)
    (self x : value) :
  (forall c y, raises_Exception_only (k c y)) ->
  raises_Exception_only (GuardedConfig_port_setter E k self x).
Proof.
  intros Hk. unfold GuardedConfig_port_setter.
  repeat (apply reo_bind; [auto with exn_only|intros ?]). apply Hk.
Qed.

Lemma reo_set_ip (E : externals) (fuel : nat) (v x : value) :
  raises_Exception_only (set_ip E fuel v x).
Proof.
  revert v x. induction fuel as [|n IH]; intros v x w e w' H; simpl in H.
  - destruct (class_of w v) as [[]|].
    + eapply reo_setattr_dict, H.
    + injection H as <- _. reflexivity.
    + eapply reo_setattr_dict, H.
  - destruct (class_of w v) as [[]|].
    + eapply reo_setattr_dict, H.
    + eapply reo_ip_setter, H. exact IH.
    + eapply reo_setattr_dict, H.
Qed.

Lemma reo_set_port (E : externals) (fuel : nat) (v x : value) :
  raises_Exception_only (set_port E fuel v x).
Proof.
  revert v x. induction fuel as [|n IH]; intros v x w e w' H; simpl in H.
  - destruct (class_of w v) as [[]|].
    + eapply reo_setattr_dict, H.
    + injection H as <- _. reflexivity.
    + eapply reo_setattr_dict, H.
  - destruct (class_of w v) as [[]|].
    + eapply reo_setattr_dict, H.
    + eapply reo_port_setter, H. exact IH.
    + eapply reo_setattr_dict, H.
Qed.

Lemma reo_setattr (E : externals) (fuel : nat) (v : value) (name : string)
    (x : value) :
  raises_Exception_only (setattr E fuel v name x).
Proof.
  unfold setattr. repeat case_match;
    auto using reo_set_ip, reo_set_port, reo_setattr_dict.
Qed.

Lemma reo_for_each {A} (l : list A) (body : A -> M unit) :
  (forall a, raises_Exception_only (body a)) ->
  raises_Exception_only (for_each l body).
Proof.
  intros Hb. induction l as [|a l IH]; simpl; auto with exn_only.
Qed.

(** Inside the [try] block, only exceptions deriving from [Exception]
    are raised, as long as the environment raises no other. *)
Lemma reo_import_config_try (E : externals) (fuel : nat)
    (loads : string -> exn + value) (path : string) :
  fails_with_Exception_only (open_ E) ->
  fails_with_Exception_only (read E) ->
  fails_with_Exception_only loads ->
  raises_Exception_only (import_config_try E fuel loads path).
Proof.
  intros Hopen Hread Hloads. unfold import_config_try, Config___init__.
  apply reo_bind; [now apply reo_lift|intros f].
  apply reo_bind; [auto with exn_only|intros config].
  apply reo_bind; [now apply reo_lift|intros text].
  apply reo_bind; [now apply reo_lift|intros json_].
  apply reo_bind; [auto with exn_only|intros ks].
  apply reo_bind; [auto with exn_only|intros cks].
  destruct (keys_ne ks cks); [apply reo_ret|].
  apply reo_bind; [auto with exn_only|intros fields].
  apply reo_bind; [|intros; apply reo_ret].
  apply reo_for_each. intros key.
  apply reo_bind; [auto with exn_only|intros x]. apply reo_setattr.
Qed.

(** ** Key views and mappings *)

Lemma key_in_ip_port (k : value) :
  key_in k ["ip"; "port"] = true <-> k = VStr "ip" \/ k = VStr "port".
Proof.
  destruct k; simpl; try (split; [discriminate|intros [|]; discriminate]).
  rewrite bool_decide_eq_true. rewrite !elem_of_cons, elem_of_nil. split.
  - intros [->|[->|[]]]; auto.
  - intros [[= ->]|[= ->]]; auto.
Qed.

(** On a mapping, whose keys are distinct, the comparison of the key
    views is the comparison of the key sets. *)
Lemma keys_ne_false_iff (ks : list value) :
  NoDup ks ->
  keys_ne ks ["ip"; "port"] = false <->
  (forall k, k ∈ ks <-> k = VStr "ip" \/ k = VStr "port").
Proof.
  intros Hnd. unfold keys_ne. rewrite negb_false_iff, andb_true_iff.
  rewrite Nat.eqb_eq, forallb_forall. split.
  - intros [Hlen Hall].
    destruct ks as [|a [|b [|c ks]]]; try discriminate.
    assert (a <> b) as Hab.
    { apply NoDup_cons in Hnd as [Ha _]. intros ->. apply Ha. left. }
    assert (a = VStr "ip" \/ a = VStr "port") as Ha
      by (apply key_in_ip_port, Hall; now left).
    assert (b = VStr "ip" \/ b = VStr "port") as Hb
      by (apply key_in_ip_port, Hall; right; now left).
    intros k. rewrite !elem_of_cons, elem_of_nil.
    destruct Ha as [->| ->], Hb as [->| ->]; try congruence; tauto.
  - intros Hset.
    assert (ks ≡ₚ [VStr "ip"; VStr "port"]) as Hperm.
    { apply NoDup_Permutation; [assumption| |].
      - apply NoDup_cons. split; [|apply NoDup_singleton].
        rewrite elem_of_cons, elem_of_nil. intros [[=]|[]].
      - intros k. rewrite Hset, !elem_of_cons, elem_of_nil. tauto. }
    split.
    + now rewrite Hperm.
    + intros k Hk. apply key_in_ip_port, Hset. now apply list_elem_of_In.
Qed.

Lemma dict_getitem_elem (d : list (value * value)) (key : string) (x : value) :
  dict_getitem d key = Some x -> (VStr key, x) ∈ d.
Proof.
  induction d as [|[k y] d IH]; simpl; [discriminate|].
  destruct k; try (intros H; right; now apply IH).
  destruct (String.eqb s key) eqn:Hs.
  - apply String.eqb_eq in Hs as ->. intros [= ->]. left.
  - intros H. right. now apply IH.
Qed.

Lemma dict_getitem_key (d : list (value * value)) (key : string) :
  VStr key ∈ map fst d -> is_Some (dict_getitem d key).
Proof.
  induction d as [|[k y] d IH]; simpl.
  - intros H. now apply elem_of_nil in H.
  - rewrite elem_of_cons. intros [Hk|Hin].
    + subst k. rewrite String.eqb_refl. eauto.
    + destruct k; auto. destruct (String.eqb s key); eauto.
Qed.

(** ** The parsers, step by step *)

Lemma import_config_with_caught (E : externals) (fuel : nat)
    (loads : string -> exn + value) (path : string) (w w0 : world) (e : exn) :
  import_config_try E fuel loads path w = (inl e, w0) ->
  is_Exception (exn_cls e) = true ->
  import_config_with E fuel loads path w = (inr VNone, logged w0 e).
Proof.
  intros Ht He. unfold import_config_with, bind, try_except_Exception.
  rewrite Ht, He. reflexivity.
Qed.

Lemma import_config_with_done (E : externals) (fuel : nat)
    (loads : string -> exn + value) (path : string) (w w0 : world) (c : completion) :
  import_config_try E fuel loads path w = (inr c, w0) ->
  import_config_with E fuel loads path w
  = (inr (match c with Returned r => r | Fell config => config end), w0).
Proof.
  intros Ht. unfold import_config_with, bind, try_except_Exception.
  rewrite Ht. now destruct c.
Qed.

Lemma import_config_with_total (E : externals) (fuel : nat)
    (loads : string -> exn + value) (path : string) (w : world) :
  fails_with_Exception_only (open_ E) ->
  fails_with_Exception_only (read E) ->
  fails_with_Exception_only loads ->
  exists r w', import_config_with E fuel loads path w = (inr r, w').
Proof.
  intros Hopen Hread Hloads.
  destruct (import_config_try E fuel loads path w) as [[e|c] w0] eqn:Ht.
  - erewrite import_config_with_caught; eauto.
    eapply reo_import_config_try; eauto.
  - erewrite import_config_with_done; eauto.
Qed.

(** The [try] block on a file that holds a mapping, up to the
    comparison of the keys. *)
Lemma import_config_try_mapping (E : externals) (fuel : nat)
    (loads : string -> exn + value) (path : string) (w : world)
    (f : file) (text : string) (d : list (value * value)) :
  open_ E path = inr f -> read E f = inr text -> loads text = inr (VDict d) ->
  let config := VObj (fresh (dom (heap w))) in
  import_config_try E fuel loads path w =
  (if keys_ne (map fst d) ["ip"; "port"] then ret (Returned VNone)
   else
     do _ <~ for_each ["ip"; "port"] (fun key =>
          do x <~ getitem (VDict d) key in
          setattr E fuel config key x) in
     ret (Fell config)) (with_blank_config w).
Proof.
  intros Hopen Hread Hloads config.
  unfold import_config_try, Config___init__, lift.
  rewrite Hopen. unfold bind at 1. unfold ret at 1.
  unfold bind at 1. unfold bind at 1. unfold alloc. unfold ret at 1.
  rewrite Hread. unfold bind at 1. unfold ret at 1.
  rewrite Hloads. unfold bind at 1. unfold ret at 1.
  unfold bind at 1. unfold dot_keys at 1. unfold ret at 1.
  unfold bind at 1. unfold dict_keys at 1. simpl heap.
  rewrite lookup_insert_eq.
  change (map fst (dict (Instance Config [("ip", VNone); ("port", VNone)])))
    with ["ip"; "port"].
  destruct (keys_ne (map fst d) ["ip"; "port"]); [reflexivity|].
  unfold bind at 1. unfold dict_keys, with_blank_config. simpl heap.
  rewrite lookup_insert_eq. reflexivity.
Qed.

Lemma with_blank_config_write (w : world) (ip port : value) :
  let l := fresh (dom (heap w)) in
  write_field (write_field (with_blank_config w) l "ip" ip) l "port" port
  = World (<[l := Instance Config [("ip", ip); ("port", port)]]> (heap w)) (stdout w).
Proof.
  intros l. unfold write_field, with_blank_config. fold l. simpl.
  rewrite lookup_insert_eq. simpl. rewrite lookup_insert_eq. simpl.
  now rewrite !insert_insert_eq.
Qed.

Lemma class_of_Config_obj (w : world) (l : loc) :
  class_of w (VObj l) = Some Config ->
  exists o, heap w !! l = Some o /\ cls o = Config.
Proof.
  simpl. destruct (heap w !! l) as [o|]; [|discriminate].
  intros [= Hc]. eauto.
Qed.

Lemma class_of_write_field (w : world) (l : loc) (name : string) (x : value) :
  class_of (write_field w l name x) (VObj l) = class_of w (VObj l).
Proof.
  unfold write_field. simpl. destruct (heap w !! l) as [o|] eqn:Ho.
  - simpl. now rewrite lookup_insert_eq.
  - now rewrite Ho.
Qed.

(** [setattr] of a field of a [Config] writes its dictionary. *)
Lemma setattr_config_ip (E : externals) (fuel : nat) (w : world) (l : loc)
    (x : value) :
  class_of w (VObj l) = Some Config ->
  setattr E fuel (VObj l) "ip" x w = (inr tt, write_field w l "ip" x).
Proof.
  intros Hc. destruct (class_of_Config_obj w l Hc) as (o & Ho & _).
  unfold setattr. change ("ip" =? "ip")%string with true. cbv iota.
  rewrite set_ip_config by assumption. now apply setattr_dict_obj with (o := o).
Qed.

Lemma setattr_config_port (E : externals) (fuel : nat) (w : world) (l : loc)
    (x : value) :
  class_of w (VObj l) = Some Config ->
  setattr E fuel (VObj l) "port" x w = (inr tt, write_field w l "port" x).
Proof.
  intros Hc. destruct (class_of_Config_obj w l Hc) as (o & Ho & _).
  unfold setattr. change ("port" =? "ip")%string with false.
  change ("port" =? "port")%string with true. cbv iota.
  rewrite set_port_config by assumption. now apply setattr_dict_obj with (o := o).
Qed.

Lemma class_of_blank_config (w : world) :
  class_of (with_blank_config w) (VObj (fresh (dom (heap w)))) = Some Config.
Proof. unfold with_blank_config. simpl. now rewrite lookup_insert_eq. Qed.

(** The parser on a file that holds a mapping: [None] when the keys
    differ from the fields, the populated [Config] otherwise. *)
Lemma import_config_with_mapping (E : externals) (fuel : nat)
    (loads : string -> exn + value) (path : string) (w : world)
    (f : file) (text : string) (d : list (value * value)) :
  open_ E path = inr f -> read E f = inr text -> loads text = inr (VDict d) ->
  NoDup (map fst d) ->
  let l := fresh (dom (heap w)) in
  (~ keys_are_ip_port d ->
   import_config_with E fuel loads path w = (inr VNone, with_blank_config w)) /\
  (keys_are_ip_port d ->
   exists ip port,
     dict_getitem d "ip" = Some ip /\ dict_getitem d "port" = Some port /\
     import_config_with E fuel loads path w
     = (inr (VObj l),
        World (<[l := Instance Config [("ip", ip); ("port", port)]]> (heap w))
              (stdout w))).
Proof.
  intros Hopen Hread Hloads Hnd l.
  pose proof (import_config_try_mapping E fuel loads path w f text d
                Hopen Hread Hloads) as Htry. cbv zeta in Htry. fold l in Htry.
  pose proof (keys_ne_false_iff (map fst d) Hnd) as Hkeys.
  split; intros Hd.
  - destruct (keys_ne (map fst d) ["ip"; "port"]) eqn:Hk.
    + now rewrite (import_config_with_done _ _ _ _ _ _ _ Htry).
    + exfalso. apply Hd. exact (proj1 Hkeys eq_refl).
  - assert (keys_ne (map fst d) ["ip"; "port"] = false) as Hk by exact (proj2 Hkeys Hd).
    rewrite Hk in Htry.
    destruct (dict_getitem_key d "ip") as [ip Hip]; [apply Hd; now left|].
    destruct (dict_getitem_key d "port") as [port Hport]; [apply Hd; now right|].
    exists ip, port. split; [assumption|]. split; [assumption|].
    rewrite (import_config_with_done E fuel loads path w
               (write_field (write_field (with_blank_config w) l "ip" ip) l "port" port)
               (Fell (VObj l))).
    + now rewrite with_blank_config_write.
    + rewrite Htry. simpl for_each. unfold bind at 1 2 3. simpl getitem.
      rewrite Hip. unfold ret at 1.
      rewrite setattr_config_ip by apply class_of_blank_config.
      unfold bind at 1 2. rewrite Hport. unfold ret at 1.
      rewrite setattr_config_port
        by (rewrite class_of_write_field; apply class_of_blank_config).
      reflexivity.
Qed.

(** ** The sample environment *)

Lemma sample_open_Exception : fails_with_Exception_only sample_open.
Proof.
  intros p e. unfold sample_open. repeat case_match; intros [= <-]. reflexivity.
Qed.

Lemma sample_read_Exception : fails_with_Exception_only sample_read.
Proof.
  intros f e. unfold sample_read. repeat case_match; intros [= <-]; reflexivity.
Qed.

Lemma sample_json_loads_Exception : fails_with_Exception_only sample_json_loads.
Proof.
  intros t e. unfold sample_json_loads. repeat case_match; intros [= <-]. reflexivity.
Qed.

Lemma sample_yaml_load_Exception : fails_with_Exception_only sample_yaml_load.
Proof. intros t e [= <-]. reflexivity. Qed.

Lemma sample_mapping_NoDup : NoDup (map fst sample_mapping).
Proof.
  simpl. apply NoDup_cons. split; [|apply NoDup_singleton].
  rewrite elem_of_cons, elem_of_nil. intros [[=]|[]].
Qed.

Lemma sample_mapping_keys : keys_are_ip_port sample_mapping.
Proof. intros k. simpl. rewrite !elem_of_cons, elem_of_nil. tauto. Qed.

Lemma sample_mapping_extra_NoDup : NoDup (map fst sample_mapping_extra).
Proof.
  simpl. apply NoDup_cons. split.
  { rewrite !elem_of_cons, elem_of_nil. intros [[=]|[[=]|[]]]. }
  apply NoDup_cons. split; [|apply NoDup_singleton].
  rewrite elem_of_cons, elem_of_nil. intros [[=]|[]].
Qed.

Lemma sample_mapping_extra_keys : ~ keys_are_ip_port sample_mapping_extra.
Proof.
  intros H. destruct (proj1 (H (VStr "extra"))) as [[=]|[=]].
  simpl. rewrite !elem_of_cons. auto.
Qed.

(** ** The parsers *)

(** C6: whatever the path, [import_config] of the JSON parser and of
    the YAML parser returns and raises nothing, provided that opening,
    reading and deserialising fail only with exceptions deriving from
    [Exception]; every exception raised inside the [try] block (by the
    file system, the deserialiser, the key comparison or the
    construction) is caught, printed, and turned into [None]. *)
Theorem import_config_never_raises (E : externals) (fuel : nat) (path : string)
    (w : world) :
  fails_with_Exception_only (open_ E) ->
  fails_with_Exception_only (read E) ->
  fails_with_Exception_only (json_loads E) ->
  fails_with_Exception_only (yaml_load E) ->
  (exists r w', JsonConfigParser_import_config E fuel path w = (inr r, w')) /\
  (exists r w', YamlConfigParser_import_config E fuel path w = (inr r, w')) /\
  (forall e w0,
     import_config_try E fuel (json_loads E) path w = (inl e, w0) ->
     JsonConfigParser_import_config E fuel path w = (inr VNone, logged w0 e)) /\
  (forall e w0,
     import_config_try E fuel (yaml_load E) path w = (inl e, w0) ->
     YamlConfigParser_import_config E fuel path w = (inr VNone, logged w0 e)).
Proof.
  intros Hopen Hread Hjson Hyaml.
  unfold JsonConfigParser_import_config, YamlConfigParser_import_config.
  split; [|split; [|split]].
  - apply import_config_with_total; assumption.
  - apply import_config_with_total; assumption.
  - intros e w0 Ht. apply import_config_with_caught; [assumption|].
    exact (reo_import_config_try E fuel (json_loads E) path
             Hopen Hread Hjson w e w0 Ht).
  - intros e w0 Ht. apply import_config_with_caught; [assumption|].
    exact (reo_import_config_try E fuel (yaml_load E) path
             Hopen Hread Hyaml w e w0 Ht).
Qed.

Lemma import_config_never_raises_witness :
  fails_with_Exception_only (open_ sample_externals) /\
  fails_with_Exception_only (read sample_externals) /\
  fails_with_Exception_only (json_loads sample_externals) /\
  fails_with_Exception_only (yaml_load sample_externals) /\
  JsonConfigParser_import_config sample_externals 1 "nope.json" empty_world
  = (inr VNone,
     logged empty_world
       (Exn OSError (Some "[Errno 2] No such file or directory: 'nope.json'"))) /\
  exists r w',
    YamlConfigParser_import_config sample_externals 1 "config.json" empty_world
    = (inr r, w').
Proof.
  split; [exact sample_open_Exception|]. split; [exact sample_read_Exception|].
  split; [exact sample_json_loads_Exception|].
  split; [exact sample_yaml_load_Exception|].
  pose proof (import_config_never_raises sample_externals 1 "nope.json" empty_world
                sample_open_Exception sample_read_Exception
                sample_json_loads_Exception sample_yaml_load_Exception)
    as (_ & _ & Hjson & _).
  pose proof (import_config_never_raises sample_externals 1 "config.json" empty_world
                sample_open_Exception sample_read_Exception
                sample_json_loads_Exception sample_yaml_load_Exception)
    as (_ & Hyaml & _).
  split; [|exact Hyaml]. apply Hjson. reflexivity.
Defined.

(** [except Exception] leaves alone the exceptions that derive from
    [BaseException] only, such as an interrupt from the keyboard: they
    are not failures of the load, and this is why the statement above
    speaks of the environment. *)
Example non_Exception_escapes :
  let E := Externals (fun _ => "") (fun _ => inl (Exn KeyboardInterrupt None))
             sample_read sample_json_loads sample_yaml_load in
  JsonConfigParser_import_config E 1 "config.json" empty_world
  = (inl (Exn KeyboardInterrupt None), empty_world).
Proof. reflexivity. Qed.

(** C7: when the file holds a mapping whose key set is not exactly
    {ip, port}, [import_config] returns [None]: the [Config] it had
    created is left unpopulated and is not handed to the caller. *)
Theorem import_config_rejects_other_keys (E : externals) (fuel : nat)
    (path : string) (w : world) (f : file) (text : string)
    (d : list (value * value)) :
  open_ E path = inr f -> read E f = inr text ->
  json_loads E text = inr (VDict d) ->
  NoDup (map fst d) ->
  ~ keys_are_ip_port d ->
  JsonConfigParser_import_config E fuel path w = (inr VNone, with_blank_config w).
Proof.
  intros Hopen Hread Hloads Hnd Hd.
  now apply (import_config_with_mapping E fuel (json_loads E) path w f text d).
Qed.

Lemma import_config_rejects_other_keys_witness :
  open_ sample_externals "extra.json" = inr 4%nat /\
  read sample_externals 4%nat = inr sample_text_extra /\
  json_loads sample_externals sample_text_extra = inr (VDict sample_mapping_extra) /\
  NoDup (map fst sample_mapping_extra) /\
  ~ keys_are_ip_port sample_mapping_extra /\
  JsonConfigParser_import_config sample_externals 1 "extra.json" empty_world
  = (inr VNone, with_blank_config empty_world).
Proof.
  split; [reflexivity|]. split; [reflexivity|]. split; [reflexivity|].
  split; [exact sample_mapping_extra_NoDup|].
  split; [exact sample_mapping_extra_keys|].
  exact (import_config_rejects_other_keys sample_externals 1 "extra.json"
           empty_world 4%nat sample_text_extra sample_mapping_extra
           eq_refl eq_refl eq_refl
           sample_mapping_extra_NoDup sample_mapping_extra_keys).
Defined.

(** The YAML parser compares the keys the same way. *)
Lemma yaml_import_config_rejects_other_keys (E : externals) (fuel : nat)
    (path : string) (w : world) (f : file) (text : string)
    (d : list (value * value)) :
  open_ E path = inr f -> read E f = inr text ->
  yaml_load E text = inr (VDict d) ->
  NoDup (map fst d) ->
  ~ keys_are_ip_port d ->
  YamlConfigParser_import_config E fuel path w = (inr VNone, with_blank_config w).
Proof.
  intros Hopen Hread Hloads Hnd Hd.
  now apply (import_config_with_mapping E fuel (yaml_load E) path w f text d).
Qed.

(** C8: when the file holds a mapping whose keys are exactly ip and
    port, [import_config] of the JSON parser returns a new [Config]
    whose ip and port are the values of the mapping, whatever their
    types: nothing is converted and nothing is checked. *)
Theorem import_config_copies_fields (E : externals) (fuel : nat)
    (path : string) (w : world) (f : file) (text : string)
    (d : list (value * value)) :
  open_ E path = inr f -> read E f = inr text ->
  json_loads E text = inr (VDict d) ->
  NoDup (map fst d) ->
  keys_are_ip_port d ->
  let l := fresh (dom (heap w)) in
  exists ip port,
    (VStr "ip", ip) ∈ d /\ (VStr "port", port) ∈ d /\
    JsonConfigParser_import_config E fuel path w
    = (inr (VObj l),
       World (<[l := Instance Config [("ip", ip); ("port", port)]]> (heap w))
             (stdout w)).
Proof.
  intros Hopen Hread Hloads Hnd Hd l.
  destruct (proj2 (import_config_with_mapping E fuel (json_loads E) path w f text d
                     Hopen Hread Hloads Hnd) Hd) as (ip & port & Hip & Hport & H).
  exists ip, port. split; [now apply dict_getitem_elem|].
  split; [now apply dict_getitem_elem|]. exact H.
Qed.

Lemma import_config_copies_fields_witness :
  open_ sample_externals "config.json" = inr 3%nat /\
  read sample_externals 3%nat = inr sample_text /\
  json_loads sample_externals sample_text = inr (VDict sample_mapping) /\
  NoDup (map fst sample_mapping) /\
  keys_are_ip_port sample_mapping /\
  let l := fresh (dom (heap empty_world)) in
  exists ip port,
    (VStr "ip", ip) ∈ sample_mapping /\ (VStr "port", port) ∈ sample_mapping /\
    JsonConfigParser_import_config sample_externals 1 "config.json" empty_world
    = (inr (VObj l),
       World (<[l := Instance Config [("ip", ip); ("port", port)]]> (heap empty_world))
             (stdout empty_world)).
Proof.
  split; [reflexivity|]. split; [reflexivity|]. split; [reflexivity|].
  split; [exact sample_mapping_NoDup|]. split; [exact sample_mapping_keys|].
  exact (import_config_copies_fields sample_externals 1 "config.json"
           empty_world 3%nat sample_text sample_mapping
           eq_refl eq_refl eq_refl sample_mapping_NoDup sample_mapping_keys).
Defined.

(** The file of the specification's example. *)
Example import_config_sample :
  JsonConfigParser_import_config sample_externals 1 "config.json" empty_world
  = (inr (VObj 1%positive),
     World (<[1%positive := Instance Config [("ip", VStr "1.2.3.4"); ("port", VInt 80)]]> ∅)
           []).
Proof. vm_compute. reflexivity. Qed.

(** The values are copied whatever their types. *)
Example import_config_no_validation :
  let E := Externals (fun _ => "") (fun _ => inr 0%nat) (fun _ => inr "")
             (fun _ => inr (VDict [(VStr "port", VStr "http"); (VStr "ip", VInt 7)]))
             sample_yaml_load in
  JsonConfigParser_import_config E 1 "any.json" empty_world
  = (inr (VObj 1%positive),
     World (<[1%positive := Instance Config [("ip", VInt 7); ("port", VStr "http")]]> ∅)
           []).
Proof. vm_compute. reflexivity. Qed.

(** * Further properties *)

(** ** The format check, character by character *)

Lemma digit_group_length (g : list ascii) :
  digit_group g -> (1 <= length g <= 3)%nat.
Proof. now intros [H _]. Qed.

Lemma dotted_quad_length (q : list ascii) :
  dotted_quad q -> (7 <= length q <= 15)%nat.
Proof.
  intros (g1 & g2 & g3 & g4 & -> & H1 & H2 & H3 & H4).
  apply digit_group_length in H1, H2, H3, H4.
  repeat (rewrite ?length_app; simpl). lia.
Qed.

Lemma dotted_quad_head (q : list ascii) :
  dotted_quad q -> exists c t, q = c :: t /\ is_digit c = true.
Proof.
  intros (g1 & g2 & g3 & g4 & -> & [Hlen Hall] & _).
  destruct g1 as [|c g1]; [simpl in Hlen; lia|].
  inversion Hall; subst. simpl. eauto.
Qed.

Lemma has_prefix_chars (s : string) :
  has_dotted_quad_prefix s <->
  exists q r, dotted_quad q /\ list_ascii_of_string s = q ++ r.
Proof.
  unfold has_dotted_quad_prefix, is_dotted_quad. split.
  - intros (q & r & Hq & ->). exists (list_ascii_of_string q), (list_ascii_of_string r).
    split; [assumption|apply list_ascii_of_string_app].
  - intros (q & r & Hq & Hs).
    exists (string_of_list_ascii q), (string_of_list_ascii r). split.
    + now rewrite list_ascii_of_string_of_list_ascii.
    + rewrite <- (string_of_list_ascii_of_string s), Hs.
      clear. induction q as [|c q IH]; [reflexivity|].
      simpl string_of_list_ascii.
      change (String c (string_of_list_ascii (q ++ r))
              = String c (string_of_list_ascii q +:+ string_of_list_ascii r)).
      now f_equal.
Qed.

Lemma substring_chars (n : nat) (s : string) :
  list_ascii_of_string (substring 0 n s) = take n (list_ascii_of_string s).
Proof.
  revert n. induction s as [|c s IH]; intros [|n]; simpl; try reflexivity.
  now rewrite IH.
Qed.

(** The verdict of the pattern only depends on the first fifteen
    characters. *)
Lemma has_prefix_fifteen (s : string) :
  has_dotted_quad_prefix s <-> has_dotted_quad_prefix (substring 0 15 s).
Proof.
  rewrite !has_prefix_chars, substring_chars. split.
  - intros (q & r & Hq & Hs). exists q, (take (15 - length q) r). split; [assumption|].
    rewrite Hs, take_app. f_equal.
    apply take_ge. apply dotted_quad_length in Hq. lia.
  - intros (q & r & Hq & Hs). exists q, (r ++ drop 15 (list_ascii_of_string s)).
    split; [assumption|].
    rewrite app_assoc, <- Hs. now rewrite take_drop.
Qed.

Lemma has_prefix_shape (s : string) :
  has_dotted_quad_prefix s ->
  (7 <= String.length s)%nat /\
  exists c rest, s = String c rest /\ is_digit c = true.
Proof.
  intros Hp. apply has_prefix_chars in Hp as (q & r & Hq & Hs). split.
  - assert (length (list_ascii_of_string s) = String.length s) as <-.
    { clear. induction s; simpl; congruence. }
    rewrite Hs, length_app. apply dotted_quad_length in Hq. lia.
  - apply dotted_quad_head in Hq as (c & t & -> & Hc).
    destruct s as [|c' rest]; [discriminate|].
    injection Hs as -> _. eauto.
Qed.

(** A string the pattern accepts is never refused by an assertion,
    whatever the wrapped objects are. *)
Lemma set_ip_valid_no_assertion (E : externals) (s : string) :
  has_dotted_quad_prefix s ->
  forall fuel v w e w',
    set_ip E fuel v (VStr s) w = (inl e, w') -> exn_cls e <> AssertionError.
Proof.
  intros Hs. induction fuel as [|n IH]; intros v w e w' H; simpl in H.
  - destruct (class_of w v) as [[]|].
    + unfold setattr_dict, no_attribute, raise in H.
      repeat case_match; try discriminate; injection H as <- _; discriminate.
    + injection H as <- _. discriminate.
    + unfold setattr_dict, no_attribute, raise in H.
      repeat case_match; try discriminate; injection H as <- _; discriminate.
  - destruct (class_of w v) as [[]|].
    + unfold setattr_dict, no_attribute, raise in H.
      repeat case_match; try discriminate; injection H as <- _; discriminate.
    + rewrite ip_setter_eq in H.
      rewrite bool_decide_eq_true_2 in H by (now apply re_match_ipv4_iff).
      unfold bind in H.
      destruct (getattr_dict v "_config" w) as [[e0|c] w0] eqn:Hg.
      * injection H as <- _. unfold getattr_dict, no_attribute, raise in Hg.
        repeat case_match; try discriminate; injection Hg as <- _; discriminate.
      * eapply IH, H.
    + unfold setattr_dict, no_attribute, raise in H.
      repeat case_match; try discriminate; injection H as <- _; discriminate.
Qed.

Lemma set_ip_assertion_iff (E : externals) (fuel : nat) (w : world)
    (self : value) (s : string) :
  class_of w self = Some GuardedConfig ->
  raises_AssertionError (set_ip E (S fuel) self (VStr s)) w <->
  ~ has_dotted_quad_prefix s.
Proof.
  intros Hself. split.
  - intros (e & w' & Hset & He) Hp.
    exact (set_ip_valid_no_assertion E s Hp _ _ _ _ _ Hset He).
  - intros Hno. exists (format_failure E (VStr s)), w. split; [|reflexivity].
    rewrite set_ip_guard by assumption. rewrite ip_setter_eq.
    now rewrite (re_match_ipv4_None s Hno).
Qed.

Lemma count_chars_app (a b : list ascii) :
  count_chars (a ++ b) = (count_chars a + count_chars b)%nat.
Proof. induction a as [|c a IH]; simpl; [reflexivity|]. rewrite IH. lia. Qed.

Lemma count_chars_ascii (a : list ascii) :
  Forall (fun c => is_continuation_byte c = false) a ->
  count_chars a = length a.
Proof.
  induction 1 as [|c a Hc _ IH]; simpl; [reflexivity|]. now rewrite Hc, IH.
Qed.

Lemma is_digit_not_continuation (c : ascii) :
  is_digit c = true -> is_continuation_byte c = false.
Proof.
  unfold is_digit, in_range, is_continuation_byte.
  change (nat_of_ascii "9") with 57%nat.
  rewrite andb_true_iff, !Nat.leb_le. intros [_ H].
  apply andb_false_iff. left. apply Nat.leb_gt. lia.
Qed.

Lemma digit_group_not_continuation (g : list ascii) :
  digit_group g -> Forall (fun c => is_continuation_byte c = false) g.
Proof.
  intros [_ H]. induction H as [|c g Hc _ IH]; constructor;
    auto using is_digit_not_continuation.
Qed.

(** A dotted quad is made of ASCII bytes: it has as many characters as
    bytes. *)
Lemma dotted_quad_count_chars (q : list ascii) :
  dotted_quad q -> count_chars q = length q.
Proof.
  intros (g1 & g2 & g3 & g4 & -> & H1 & H2 & H3 & H4).
  apply count_chars_ascii.
  apply digit_group_not_continuation in H1, H2, H3, H4.
  repeat (apply Forall_app; split; [assumption|]; constructor; [reflexivity|]).
  assumption.
Qed.

Lemma has_prefix_py_len (s : string) :
  has_dotted_quad_prefix s -> (7 <= py_len s)%nat.
Proof.
  intros Hp. apply has_prefix_chars in Hp as (q & r & Hq & Hs).
  unfold py_len. rewrite Hs, count_chars_app, (dotted_quad_count_chars q Hq).
  apply dotted_quad_length in Hq. lia.
Qed.

(** X1: a text of fewer than seven characters (characters, not bytes:
    [len(s) < 7]), and a text that does not begin with an ASCII digit
    (the empty string, a string with leading white space or a sign), is
    refused by the ip setter with the format failure; nothing is
    trimmed. *)
Theorem set_ip_rejects_short_or_non_digit (E : externals) (fuel : nat)
    (w : world) (self : value) (s : string) :
  class_of w self = Some GuardedConfig ->
  (py_len s < 7)%nat \/
    (forall c rest, s = String c rest -> is_digit c = false) ->
  set_ip E (S fuel) self (VStr s) w = (inl (format_failure E (VStr s)), w).
Proof.
  intros Hself Hs.
  assert (~ has_dotted_quad_prefix s) as Hno.
  { intros Hp. pose proof (has_prefix_py_len s Hp) as Hlen.
    apply has_prefix_shape in Hp as (_ & c & rest & -> & Hc).
    destruct Hs as [Hshort|Hhead]; [lia|].
    rewrite (Hhead c rest eq_refl) in Hc. discriminate. }
  rewrite set_ip_guard by assumption. rewrite ip_setter_eq.
  now rewrite (re_match_ipv4_None s Hno).
Qed.

Lemma set_ip_rejects_short_or_non_digit_witness :
  class_of sample_world (VObj 2%positive) = Some GuardedConfig /\
  (forall c rest, " 10.0.0.1" = String c rest -> is_digit c = false) /\
  (py_len "1.2.3é" < 7)%nat /\ String.length "1.2.3é" = 7%nat /\
  set_ip sample_externals 1 (VObj 2%positive) (VStr " 10.0.0.1") sample_world
  = (inl (Exn AssertionError (Some "ip ' 10.0.0.1' does not have correct format")),
     sample_world) /\
  set_ip sample_externals 1 (VObj 2%positive) (VStr "1.2.3é") sample_world
  = (inl (Exn AssertionError (Some "ip '1.2.3é' does not have correct format")),
     sample_world).
Proof.
  assert (forall c rest, " 10.0.0.1" = String c rest -> is_digit c = false) as Hhead
    by (intros c rest [= <- _]; reflexivity).
  assert (py_len "1.2.3é" < 7)%nat as Hshort by (vm_compute; lia).
  split; [reflexivity|]. split; [exact Hhead|]. split; [exact Hshort|].
  split; [reflexivity|]. split.
  - exact (set_ip_rejects_short_or_non_digit sample_externals 0 sample_world
             (VObj 2%positive) " 10.0.0.1" sample_guard (or_intror Hhead)).
  - exact (set_ip_rejects_short_or_non_digit sample_externals 0 sample_world
             (VObj 2%positive) "1.2.3é" sample_guard (or_introl Hshort)).
Defined.

(** The count of characters is at most the count of bytes, so the
    strings of fewer than seven bytes are among those refused. *)
Lemma py_len_le_length (s : string) : (py_len s <= String.length s)%nat.
Proof.
  unfold py_len. induction s as [|c s IH]; simpl; [lia|].
  destruct (is_continuation_byte c); lia.
Qed.

(** X2: the ip setter looks at the first fifteen characters at most:
    two strings that agree on them are both refused by an assertion or
    both let through. *)
Theorem ip_check_reads_fifteen_chars (E : externals) (fuel : nat) (w : world)
    (self : value) (s t : string) :
  class_of w self = Some GuardedConfig ->
  substring 0 15 s = substring 0 15 t ->
  raises_AssertionError (set_ip E (S fuel) self (VStr s)) w <->
  raises_AssertionError (set_ip E (S fuel) self (VStr t)) w.
Proof.
  intros Hself Hst. rewrite !set_ip_assertion_iff by assumption.
  rewrite (has_prefix_fifteen s), (has_prefix_fifteen t), Hst. reflexivity.
Qed.

Lemma ip_check_reads_fifteen_chars_witness :
  class_of sample_world (VObj 2%positive) = Some GuardedConfig /\
  substring 0 15 "111.222.333.444 and more" = substring 0 15 "111.222.333.444" /\
  (raises_AssertionError
     (set_ip sample_externals 1 (VObj 2%positive) (VStr "111.222.333.444 and more"))
     sample_world <->
   raises_AssertionError
     (set_ip sample_externals 1 (VObj 2%positive) (VStr "111.222.333.444"))
     sample_world).
Proof.
  split; [reflexivity|]. split; [reflexivity|].
  exact (ip_check_reads_fifteen_chars sample_externals 0 sample_world
           (VObj 2%positive) "111.222.333.444 and more" "111.222.333.444"
           sample_guard eq_refl).
Defined.

(** ** More on dictionaries and worlds *)

Lemma dict_get_set_ne (d : list (string * value)) (k k' : string) (x : value) :
  k <> k' -> dict_get (dict_set d k x) k' = dict_get d k'.
Proof.
  intros Hne. induction d as [|[k0 v0] d IH]; simpl.
  - destruct (String.eqb k k') eqn:Hk; [|reflexivity].
    apply String.eqb_eq in Hk. contradiction.
  - destruct (String.eqb k0 k) eqn:Hk0; simpl.
    + apply String.eqb_eq in Hk0 as ->.
      destruct (String.eqb k k') eqn:Hk; [|reflexivity].
      apply String.eqb_eq in Hk. contradiction.
    + now rewrite IH.
Qed.

Lemma dict_set_set (d : list (string * value)) (k : string) (a b : value) :
  dict_set (dict_set d k a) k b = dict_set d k b.
Proof.
  induction d as [|[k0 v0] d IH]; simpl.
  - now rewrite String.eqb_refl.
  - destruct (String.eqb k0 k) eqn:Hk0; simpl; rewrite Hk0; [reflexivity|].
    now rewrite IH.
Qed.

Lemma write_field_twice (w : world) (l : loc) (k : string) (a b : value) :
  write_field (write_field w l k a) l k b = write_field w l k b.
Proof.
  unfold write_field. destruct (heap w !! l) as [o|] eqn:Ho; simpl.
  - rewrite lookup_insert_eq. simpl. now rewrite insert_insert_eq, dict_set_set.
  - now rewrite Ho.
Qed.

Lemma write_field_same_elsewhere (w : world) (l : loc) (k : string) (x : value) :
  same_elsewhere l w (write_field w l k x).
Proof.
  intros l' Hne. unfold write_field. destruct (heap w !! l); [|reflexivity].
  simpl. now rewrite lookup_insert_ne.
Qed.

Lemma write_field_stdout (w : world) (l : loc) (k : string) (x : value) :
  stdout (write_field w l k x) = stdout w.
Proof. unfold write_field. now destruct (heap w !! l). Qed.

Lemma field_write_field_ne (w : world) (l : loc) (k k' : string) (x : value) :
  k <> k' -> field (write_field w l k x) l k' = field w l k'.
Proof.
  intros Hne. unfold field, write_field. destruct (heap w !! l) as [o|] eqn:Ho.
  - simpl. rewrite lookup_insert_eq. simpl. now apply dict_get_set_ne.
  - now rewrite Ho.
Qed.

Lemma fresh_loc_unused (w : world) : heap w !! fresh (dom (heap w)) = None.
Proof. apply not_elem_of_dom. apply is_fresh. Qed.

Lemma wraps_extends (w w' : world) (n : nat) (v : value) (l : loc) :
  heap_extends w w' -> wraps w n v l -> wraps w' n v l.
Proof.
  intros Hext. induction 1 as [l o Ho Hc|n g o c l Ho Hc Hd Hw IH].
  - apply wraps_config with (o := o); auto.
  - apply wraps_guard with (o := o) (c := c); auto.
Qed.

Lemma field_getattr (w : world) (l : loc) (name : string) (x : value) :
  field w l name = Some x -> getattr_dict (VObj l) name w = (inr x, w).
Proof.
  unfold field, getattr_dict. destruct (heap w !! l) as [o|]; [|discriminate].
  simpl. now intros ->.
Qed.

(** ** Wrapping *)

(** X3: [GuardedConfig(config)] checks nothing and changes no existing
    object: it adds one wrapper, and the ip and the port read through
    the new wrapper are the current fields of the wrapped [Config],
    whatever values they hold. *)
Theorem wrapping_keeps_and_delegates (n : nat) (w : world) (c : value)
    (l : loc) (ip port : value) :
  wraps w n c l ->
  field w l "ip" = Some ip -> field w l "port" = Some port ->
  let g := fresh (dom (heap w)) in
  exists w',
    GuardedConfig___init__ c w = (inr (VObj g), w') /\
    heap w !! g = None /\ same_elsewhere g w w' /\ stdout w' = stdout w /\
    wraps w' (S n) (VObj g) l /\
    forall fuel, (S n <= fuel)%nat ->
      dot_ip fuel (VObj g) w' = (inr ip, w') /\
      dot_port fuel (VObj g) w' = (inr port, w').
Proof.
  intros Hw Hip Hport g.
  set (w' := World (<[g := Instance GuardedConfig [("_config", c)]]> (heap w)) (stdout w)).
  pose proof (fresh_loc_unused w) as Hg. fold g in Hg.
  assert (heap_extends w w') as Hext.
  { intros l0 o0 Ho0. simpl. rewrite lookup_insert_ne; [assumption|].
    intros <-. congruence. }
  assert (wraps w' (S n) (VObj g) l) as Hw'.
  { apply wraps_guard with (o := Instance GuardedConfig [("_config", c)]) (c := c).
    - simpl. apply lookup_insert_eq.
    - reflexivity.
    - reflexivity.
    - now apply wraps_extends with (w := w). }
  assert (forall name x, field w l name = Some x -> field w' l name = Some x) as Hf.
  { intros name x. unfold field.
    destruct (heap w !! l) as [o|] eqn:Ho; [|discriminate].
    now rewrite (Hext l o Ho). }
  exists w'. split; [reflexivity|]. split; [assumption|]. split.
  { intros l' Hne. simpl. now rewrite lookup_insert_ne. }
  split; [reflexivity|]. split; [assumption|].
  intros fuel Hfuel. split.
  - rewrite (dot_ip_chain w' (S n) (VObj g) l Hw' fuel Hfuel).
    apply field_getattr. now apply Hf.
  - rewrite (dot_port_chain w' (S n) (VObj g) l Hw' fuel Hfuel).
    apply field_getattr. now apply Hf.
Qed.

Lemma wrapping_keeps_and_delegates_witness :
  wraps sample_world 1 (VObj 2%positive) 1%positive /\
  field sample_world 1%positive "ip" = Some (VStr "10.0.0.1") /\
  field sample_world 1%positive "port" = Some (VInt 8080) /\
  let g := fresh (dom (heap sample_world)) in
  exists w',
    GuardedConfig___init__ (VObj 2%positive) sample_world = (inr (VObj g), w') /\
    heap sample_world !! g = None /\ same_elsewhere g sample_world w' /\
    stdout w' = stdout sample_world /\
    wraps w' 2 (VObj g) 1%positive /\
    forall fuel, (2 <= fuel)%nat ->
      dot_ip fuel (VObj g) w' = (inr (VStr "10.0.0.1"), w') /\
      dot_port fuel (VObj g) w' = (inr (VInt 8080), w').
Proof.
  split; [exact sample_wraps|]. split; [reflexivity|]. split; [reflexivity|].
  exact (wrapping_keeps_and_delegates 1 sample_world (VObj 2%positive) 1%positive
           (VStr "10.0.0.1") (VInt 8080) sample_wraps eq_refl eq_refl).
Defined.

(** X4: the guard only stands on the path through the wrapper.  An
    assignment made on the wrapped [Config] itself is checked by
    nothing, whatever the value, and the wrapper shows it on the next
    read. *)
Theorem direct_write_bypasses_guard (E : externals) (fuel n : nat) (w : world)
    (self : value) (l : loc) (x : value) :
  wraps w (S n) self l -> (S n <= fuel)%nat ->
  (let w' := write_field w l "ip" x in
   set_ip E fuel (VObj l) x w = (inr tt, w') /\
   dot_ip fuel self w' = (inr x, w')) /\
  (let w' := write_field w l "port" x in
   set_port E fuel (VObj l) x w = (inr tt, w') /\
   dot_port fuel self w' = (inr x, w')).
Proof.
  intros Hw Hf.
  destruct (wraps_target_obj _ _ _ _ Hw) as (o & Ho & Hc).
  pose proof (wraps_target _ _ _ _ Hw) as Hl.
  split; intros w'; subst w'; split.
  - rewrite set_ip_config by assumption. now apply setattr_dict_obj with (o := o).
  - pose proof (wraps_write_field w (S n) self l l "ip" x Hw Hl) as Hw'.
    rewrite (dot_ip_chain _ _ _ _ Hw' fuel Hf).
    now apply getattr_dict_write_field with (o := o).
  - rewrite set_port_config by assumption. now apply setattr_dict_obj with (o := o).
  - pose proof (wraps_write_field w (S n) self l l "port" x Hw Hl) as Hw'.
    rewrite (dot_port_chain _ _ _ _ Hw' fuel Hf).
    now apply getattr_dict_write_field with (o := o).
Qed.

Lemma direct_write_bypasses_guard_witness :
  wraps sample_world 1 (VObj 2%positive) 1%positive /\ (1 <= 1)%nat /\
  set_ip sample_externals 1 (VObj 1%positive) (VStr "localhost") sample_world
  = (inr tt, write_field sample_world 1%positive "ip" (VStr "localhost")) /\
  dot_ip 1 (VObj 2%positive) (write_field sample_world 1%positive "ip" (VStr "localhost"))
  = (inr (VStr "localhost"), write_field sample_world 1%positive "ip" (VStr "localhost")).
Proof.
  split; [exact sample_wraps|]. split; [lia|].
  exact (proj1 (direct_write_bypasses_guard sample_externals 1 0 sample_world
                  (VObj 2%positive) 1%positive (VStr "localhost")
                  sample_wraps (le_n 1))).
Defined.

(** X5: a successful assignment through the wrapper changes one entry
    of one object: assigning the ip leaves the port of the wrapped
    [Config], every other object and the output as they were, and the
    same holds for the port and the ip. *)
Theorem guarded_set_changes_one_field (E : externals) (fuel n : nat)
    (w w' : world) (self : value) (l : loc) (x : value) :
  wraps w (S n) self l ->
  (set_ip E fuel self x w = (inr tt, w') ->
     field w' l "port" = field w l "port" /\
     same_elsewhere l w w' /\ stdout w' = stdout w) /\
  (set_port E fuel self x w = (inr tt, w') ->
     field w' l "ip" = field w l "ip" /\
     same_elsewhere l w w' /\ stdout w' = stdout w).
Proof.
  intros Hw. split; intros Hset.
  - apply (set_ip_success E w (S n) self l Hw) in Hset as [-> _].
    split; [now apply field_write_field_ne|].
    split; [apply write_field_same_elsewhere|apply write_field_stdout].
  - apply (set_port_success E w (S n) self l Hw) in Hset as [-> _].
    split; [now apply field_write_field_ne|].
    split; [apply write_field_same_elsewhere|apply write_field_stdout].
Qed.

Lemma guarded_set_changes_one_field_witness :
  wraps sample_world 1 (VObj 2%positive) 1%positive /\
  set_ip sample_externals 1 (VObj 2%positive) (VStr "127.0.0.1") sample_world
  = (inr tt, write_field sample_world 1%positive "ip" (VStr "127.0.0.1")) /\
  field (write_field sample_world 1%positive "ip" (VStr "127.0.0.1")) 1%positive "port"
  = field sample_world 1%positive "port" /\
  same_elsewhere 1%positive sample_world
    (write_field sample_world 1%positive "ip" (VStr "127.0.0.1")) /\
  stdout (write_field sample_world 1%positive "ip" (VStr "127.0.0.1"))
  = stdout sample_world.
Proof.
  split; [exact sample_wraps|].
  assert (set_ip sample_externals 1 (VObj 2%positive) (VStr "127.0.0.1") sample_world
          = (inr tt, write_field sample_world 1%positive "ip" (VStr "127.0.0.1")))
    as Hset by reflexivity.
  split; [exact Hset|].
  exact (proj1 (guarded_set_changes_one_field sample_externals 1 0 sample_world _
                  (VObj 2%positive) 1%positive (VStr "127.0.0.1") sample_wraps) Hset).
Defined.

(** ** What an access leaves behind *)

Lemma getattr_dict_world (v : value) (name : string) (w : world)
    (r : exn + value) (w' : world) :
  getattr_dict v name w = (r, w') -> w' = w.
Proof.
  unfold getattr_dict, no_attribute, raise.
  repeat case_match; intros [= _ <-]; reflexivity.
Qed.

Lemma setattr_dict_failure (v : value) (name : string) (x : value) (w : world)
    (e : exn) (w' : world) :
  setattr_dict v name x w = (inl e, w') -> w' = w.
Proof.
  unfold setattr_dict, no_attribute, raise.
  repeat case_match; try discriminate; intros [= _ <-]; reflexivity.
Qed.

Lemma set_ip_failure (E : externals) (fuel : nat) :
  forall v x w e w', set_ip E fuel v x w = (inl e, w') -> w' = w.
Proof.
  induction fuel as [|n IH]; intros v x w e w' H; simpl in H.
  - destruct (class_of w v) as [[]|]; eauto using setattr_dict_failure.
    now injection H as _ <-.
  - destruct (class_of w v) as [[]|]; eauto using setattr_dict_failure.
    rewrite ip_setter_eq in H. destruct x; try (now injection H as _ <-).
    destruct (bool_decide _); [|now injection H as _ <-].
    unfold bind in H.
    destruct (getattr_dict v "_config" w) as [[e0|c] w0] eqn:Hg;
      apply getattr_dict_world in Hg as ->.
    + now injection H as _ <-.
    + eapply IH, H.
Qed.

Lemma set_port_failure (E : externals) (fuel : nat) :
  forall v x w e w', set_port E fuel v x w = (inl e, w') -> w' = w.
Proof.
  induction fuel as [|n IH]; intros v x w e w' H; simpl in H.
  - destruct (class_of w v) as [[]|]; eauto using setattr_dict_failure.
    now injection H as _ <-.
  - destruct (class_of w v) as [[]|]; eauto using setattr_dict_failure.
    rewrite port_setter_eq in H.
    destruct (isinstance_int x); [|now injection H as _ <-].
    destruct (range_contains _ _ x); [|now injection H as _ <-].
    unfold bind in H.
    destruct (getattr_dict v "_config" w) as [[e0|c] w0] eqn:Hg;
      apply getattr_dict_world in Hg as ->.
    + now injection H as _ <-.
    + eapply IH, H.
Qed.

(** X6: an assignment to ip or port that raises, for whatever reason
    (a guard that refuses the value, a wrapped object without the
    attribute, the recursion limit) and through whatever object, has
    written nothing: the world is the one before the assignment. *)
Theorem failed_assignment_changes_nothing (E : externals) (fuel : nat)
    (v x : value) (w w' : world) (e : exn) :
  (set_ip E fuel v x w = (inl e, w') -> w' = w) /\
  (set_port E fuel v x w = (inl e, w') -> w' = w).
Proof. split; [apply set_ip_failure|apply set_port_failure]. Qed.

Lemma failed_assignment_changes_nothing_witness :
  set_port sample_externals 1 (VObj 2%positive) (VInt 70000) sample_world
  = (inl (Exn AssertionError (Some "port 70000 is not in valid range")), sample_world) /\
  sample_world = sample_world.
Proof.
  assert (set_port sample_externals 1 (VObj 2%positive) (VInt 70000) sample_world
          = (inl (Exn AssertionError (Some "port 70000 is not in valid range")),
             sample_world)) as H by reflexivity.
  split; [exact H|].
  exact (proj2 (failed_assignment_changes_nothing sample_externals 1
                  (VObj 2%positive) (VInt 70000) sample_world sample_world _) H).
Defined.

Lemma dot_ip_world (fuel : nat) :
  forall v w r w', dot_ip fuel v w = (r, w') -> w' = w.
Proof.
  induction fuel as [|n IH]; intros v w r w' H; simpl in H.
  - destruct (class_of w v) as [[]|]; eauto using getattr_dict_world.
    now injection H as _ <-.
  - destruct (class_of w v) as [[]|]; eauto using getattr_dict_world.
    unfold GuardedConfig_ip_getter, bind in H.
    destruct (getattr_dict v "_config" w) as [[e0|c] w0] eqn:Hg;
      apply getattr_dict_world in Hg as ->.
    + now injection H as _ <-.
    + eapply IH, H.
Qed.

Lemma dot_port_world (fuel : nat) :
  forall v w r w', dot_port fuel v w = (r, w') -> w' = w.
Proof.
  induction fuel as [|n IH]; intros v w r w' H; simpl in H.
  - destruct (class_of w v) as [[]|]; eauto using getattr_dict_world.
    now injection H as _ <-.
  - destruct (class_of w v) as [[]|]; eauto using getattr_dict_world.
    unfold GuardedConfig_port_getter, bind in H.
    destruct (getattr_dict v "_config" w) as [[e0|c] w0] eqn:Hg;
      apply getattr_dict_world in Hg as ->.
    + now injection H as _ <-.
    + eapply IH, H.
Qed.

(** X7: reading ip or port, and rendering with [__repr__], change
    nothing, whether they return or raise and whatever the object. *)
Theorem reads_change_nothing (E : externals) (fuel : nat) (v : value)
    (w w' : world) :
  (forall r, dot_ip fuel v w = (r, w') -> w' = w) /\
  (forall r, dot_port fuel v w = (r, w') -> w' = w) /\
  (forall r, ConfigWrapper___repr__ E fuel v w = (r, w') -> w' = w).
Proof.
  split; [|split].
  - intros r. apply dot_ip_world.
  - intros r. apply dot_port_world.
  - intros r H. unfold ConfigWrapper___repr__, bind, ret in H.
    destruct (dot_ip fuel v w) as [[e|ip] w1] eqn:Hip;
      apply dot_ip_world in Hip as ->; [now injection H as _ <-|].
    destruct (dot_port fuel v w) as [[e|port] w1] eqn:Hport;
      apply dot_port_world in Hport as ->; now injection H as _ <-.
Qed.

Lemma reads_change_nothing_witness :
  ConfigWrapper___repr__ sample_externals 1 (VObj 2%positive) sample_world
  = (inr "GuardedConfig(ip='10.0.0.1', port=8080)", sample_world) /\
  sample_world = sample_world.
Proof.
  assert (ConfigWrapper___repr__ sample_externals 1 (VObj 2%positive) sample_world
          = (inr "GuardedConfig(ip='10.0.0.1', port=8080)", sample_world))
    as H by reflexivity.
  split; [exact H|].
  exact (proj2 (proj2 (reads_change_nothing sample_externals 1 (VObj 2%positive)
                         sample_world sample_world)) _ H).
Defined.

(** ** Assignments that follow one another *)

(** X8: of two accepted assignments of the ip through the wrapper, the
    second replaces the first: the world is the one the second alone
    would have given. *)
Theorem second_assignment_overwrites (E : externals) (fuel n : nat) (w : world)
    (self : value) (l : loc) (a b : string) :
  wraps w (S n) self l -> (S n <= fuel)%nat ->
  has_dotted_quad_prefix a -> has_dotted_quad_prefix b ->
  exists w1,
    set_ip E fuel self (VStr a) w = (inr tt, w1) /\
    set_ip E fuel self (VStr b) w1 = set_ip E fuel self (VStr b) w /\
    set_ip E fuel self (VStr b) w1 = (inr tt, write_field w l "ip" (VStr b)).
Proof.
  intros Hw Hf Ha Hb. exists (write_field w l "ip" (VStr a)).
  pose proof (wraps_target _ _ _ _ Hw) as Hl.
  pose proof (wraps_write_field w (S n) self l l "ip" (VStr a) Hw Hl) as Hw1.
  rewrite (set_ip_chain E w (S n) self l a Hw Ha fuel Hf).
  rewrite (set_ip_chain E w (S n) self l b Hw Hb fuel Hf).
  rewrite (set_ip_chain E _ (S n) self l b Hw1 Hb fuel Hf).
  now rewrite write_field_twice.
Qed.

Lemma second_assignment_overwrites_witness :
  wraps sample_world 1 (VObj 2%positive) 1%positive /\ (1 <= 1)%nat /\
  has_dotted_quad_prefix "10.0.0.2" /\ has_dotted_quad_prefix "127.0.0.1" /\
  exists w1,
    set_ip sample_externals 1 (VObj 2%positive) (VStr "10.0.0.2") sample_world
    = (inr tt, w1) /\
    set_ip sample_externals 1 (VObj 2%positive) (VStr "127.0.0.1") w1
    = set_ip sample_externals 1 (VObj 2%positive) (VStr "127.0.0.1") sample_world /\
    set_ip sample_externals 1 (VObj 2%positive) (VStr "127.0.0.1") w1
    = (inr tt, write_field sample_world 1%positive "ip" (VStr "127.0.0.1")).
Proof.
  assert (has_dotted_quad_prefix "10.0.0.2") as Ha
    by (apply re_match_ipv4_iff; vm_compute; eauto).
  assert (has_dotted_quad_prefix "127.0.0.1") as Hb
    by (apply re_match_ipv4_iff; vm_compute; eauto).
  split; [exact sample_wraps|]. split; [lia|]. split; [exact Ha|]. split; [exact Hb|].
  exact (second_assignment_overwrites sample_externals 1 0 sample_world
           (VObj 2%positive) 1%positive "10.0.0.2" "127.0.0.1"
           sample_wraps (le_n 1) Ha Hb).
Defined.

(** X9: a [bool] is an [int] for the port setter: [True] and [False]
    pass the type check and the range check, and the wrapped [Config]
    then holds the boolean itself, not 1 or 0. *)
Theorem bool_port_accepted (E : externals) (fuel n : nat) (w : world)
    (self : value) (l : loc) (b : bool) :
  wraps w (S n) self l -> (S n <= fuel)%nat ->
  let w' := write_field w l "port" (VBool b) in
  set_port E fuel self (VBool b) w = (inr tt, w') /\
  field w' l "port" = Some (VBool b) /\
  dot_port fuel self w' = (inr (VBool b), w').
Proof.
  intros Hw Hf w'. subst w'.
  destruct (wraps_target_obj _ _ _ _ Hw) as (o & Ho & Hc).
  pose proof (wraps_target _ _ _ _ Hw) as Hl.
  pose proof (wraps_write_field w (S n) self l l "port" (VBool b) Hw Hl) as Hw'.
  split; [|split].
  - apply (set_port_chain E w (S n) self l (VBool b) Hw); [reflexivity| |assumption].
    now destruct b.
  - now apply field_write_field with (o := o).
  - rewrite (dot_port_chain _ _ _ _ Hw' fuel Hf).
    now apply getattr_dict_write_field with (o := o).
Qed.

Lemma bool_port_accepted_witness :
  wraps sample_world 1 (VObj 2%positive) 1%positive /\ (1 <= 1)%nat /\
  let w' := write_field sample_world 1%positive "port" (VBool true) in
  set_port sample_externals 1 (VObj 2%positive) (VBool true) sample_world
  = (inr tt, w') /\
  field w' 1%positive "port" = Some (VBool true) /\
  dot_port 1 (VObj 2%positive) w' = (inr (VBool true), w').
Proof.
  split; [exact sample_wraps|]. split; [lia|].
  exact (bool_port_accepted sample_externals 1 0 sample_world (VObj 2%positive)
           1%positive true sample_wraps (le_n 1)).
Defined.

(** ** Wrappers around wrappers, and around anything else *)

Lemma set_ip_through_guard (E : externals) (fuel n : nat) (w : world)
    (self : value) (l : loc) (x : value) :
  wraps w (S n) self l -> (S n <= fuel)%nat ->
  set_ip E fuel self x w =
  match x with
  | VStr s =>
      if bool_decide (is_Some (re_match _ipv4_regex s))
      then (inr tt, write_field w l "ip" x)
      else (inl (format_failure E x), w)
  | _ => (inl type_failure, w)
  end.
Proof.
  intros Hw Hf. pose proof (wraps_class_of _ _ _ _ Hw) as Hself.
  destruct x; try (destruct fuel; [lia|]; rewrite set_ip_guard by assumption;
                   now rewrite ip_setter_eq).
  case_bool_decide as Hm.
  - apply set_ip_chain with (n := S n); try assumption. now apply re_match_ipv4_iff.
  - destruct fuel; [lia|]. rewrite set_ip_guard by assumption.
    rewrite ip_setter_eq. now rewrite bool_decide_eq_false_2.
Qed.

Lemma set_port_through_guard (E : externals) (fuel n : nat) (w : world)
    (self : value) (l : loc) (x : value) :
  wraps w (S n) self l -> (S n <= fuel)%nat ->
  set_port E fuel self x w =
  if isinstance_int x
  then if range_contains _port_min (_port_max + 1) x
       then (inr tt, write_field w l "port" x)
       else (inl (range_failure E x), w)
  else (inl type_failure, w).
Proof.
  intros Hw Hf. pose proof (wraps_class_of _ _ _ _ Hw) as Hself.
  destruct (isinstance_int x) eqn:Hi.
  - destruct (range_contains _ _ x) eqn:Hr.
    + now apply set_port_chain with (n := S n).
    + destruct fuel; [lia|]. rewrite set_port_guard by assumption.
      rewrite port_setter_eq. now rewrite Hi, Hr.
  - destruct fuel; [lia|]. rewrite set_port_guard by assumption.
    rewrite port_setter_eq. now rewrite Hi.
Qed.

(** X10: a wrapper around a wrapper behaves as the inner wrapper does.
    Every assignment of ip or port, accepted or refused, gives the same
    result and the same world through either of them, and so does every
    read. *)
Theorem wrapping_twice_is_wrapping_once (E : externals) (fuel n : nat)
    (w : world) (outer inner : value) (l : loc) (x : value) :
  wraps w (S n) inner l -> wraps w (S (S n)) outer l ->
  (S (S n) <= fuel)%nat ->
  set_ip E fuel outer x w = set_ip E fuel inner x w /\
  set_port E fuel outer x w = set_port E fuel inner x w /\
  dot_ip fuel outer w = dot_ip fuel inner w /\
  dot_port fuel outer w = dot_port fuel inner w.
Proof.
  intros Hin Hout Hf. repeat split.
  - rewrite (set_ip_through_guard E fuel (S n) w outer l x Hout Hf).
    rewrite (set_ip_through_guard E fuel n w inner l x Hin) by lia. reflexivity.
  - rewrite (set_port_through_guard E fuel (S n) w outer l x Hout Hf).
    rewrite (set_port_through_guard E fuel n w inner l x Hin) by lia. reflexivity.
  - rewrite (dot_ip_chain _ _ _ _ Hout fuel Hf).
    rewrite (dot_ip_chain _ _ _ _ Hin fuel) by lia. reflexivity.
  - rewrite (dot_port_chain _ _ _ _ Hout fuel Hf).
    rewrite (dot_port_chain _ _ _ _ Hin fuel) by lia. reflexivity.
Qed.

Lemma twice_wrapped_inner : wraps twice_wrapped_world 1 (VObj 2%positive) 1%positive.
Proof.
  eapply wraps_guard with (c := VObj 1%positive); [reflexivity..|].
  eapply wraps_config with (o := sample_config); reflexivity.
Qed.

Lemma twice_wrapped_outer : wraps twice_wrapped_world 2 (VObj 3%positive) 1%positive.
Proof.
  eapply wraps_guard with (c := VObj 2%positive); [reflexivity..|].
  exact twice_wrapped_inner.
Qed.

Lemma wrapping_twice_is_wrapping_once_witness :
  wraps twice_wrapped_world 1 (VObj 2%positive) 1%positive /\
  wraps twice_wrapped_world 2 (VObj 3%positive) 1%positive /\ (2 <= 2)%nat /\
  set_ip sample_externals 2 (VObj 3%positive) (VStr "localhost") twice_wrapped_world
  = set_ip sample_externals 2 (VObj 2%positive) (VStr "localhost") twice_wrapped_world.
Proof.
  split; [exact twice_wrapped_inner|]. split; [exact twice_wrapped_outer|].
  split; [lia|].
  exact (proj1 (wrapping_twice_is_wrapping_once sample_externals 2 0
                  twice_wrapped_world (VObj 3%positive) (VObj 2%positive) 1%positive
                  (VStr "localhost") twice_wrapped_inner twice_wrapped_outer (le_n 2))).
Defined.

Lemma dot_ip_guard (n : nat) (v : value) (w : world) :
  class_of w v = Some GuardedConfig ->
  dot_ip (S n) v w = GuardedConfig_ip_getter (dot_ip n) v w.
Proof. intros H. simpl. now rewrite H. Qed.

Lemma dot_port_guard (n : nat) (v : value) (w : world) :
  class_of w v = Some GuardedConfig ->
  dot_port (S n) v w = GuardedConfig_port_getter (dot_port n) v w.
Proof. intros H. simpl. now rewrite H. Qed.

Lemma dot_ip_data (n : nat) (v : value) (w : world) :
  class_of w v = None -> dot_ip n v w = getattr_dict v "ip" w.
Proof. intros H. destruct n; simpl; now rewrite H. Qed.

Lemma dot_port_data (n : nat) (v : value) (w : world) :
  class_of w v = None -> dot_port n v w = getattr_dict v "port" w.
Proof. intros H. destruct n; simpl; now rewrite H. Qed.

Lemma set_ip_data (E : externals) (n : nat) (v x : value) (w : world) :
  class_of w v = None -> set_ip E n v x w = setattr_dict v "ip" x w.
Proof. intros H. destruct n; simpl; now rewrite H. Qed.

(** X11: the constructor takes any value.  Around a value that is not
    an object of the module ([None], a number, a string, a mapping) the
    wrapper is built all the same, and the mistake shows at the first
    use: a read raises an [AttributeError], and so does the assignment
    of an ip the guard accepts, while an ip the guard refuses still
    fails with the format failure. *)
Theorem wrapper_around_data_value (E : externals) (fuel : nat) (w : world)
    (c : value) :
  (forall l, c <> VObj l) ->
  let g := fresh (dom (heap w)) in
  exists w',
    GuardedConfig___init__ c w = (inr (VObj g), w') /\
    (exists e, dot_ip (S fuel) (VObj g) w' = (inl e, w') /\
               exn_cls e = AttributeError) /\
    (exists e, dot_port (S fuel) (VObj g) w' = (inl e, w') /\
               exn_cls e = AttributeError) /\
    (forall s, has_dotted_quad_prefix s ->
       exists e, set_ip E (S fuel) (VObj g) (VStr s) w' = (inl e, w') /\
                 exn_cls e = AttributeError) /\
    (forall s, ~ has_dotted_quad_prefix s ->
       set_ip E (S fuel) (VObj g) (VStr s) w' = (inl (format_failure E (VStr s)), w')).
Proof.
  intros Hc g.
  set (o := Instance GuardedConfig [("_config", c)]).
  set (w' := World (<[g := o]> (heap w)) (stdout w)).
  assert (heap w' !! g = Some o) as Ho by (simpl; apply lookup_insert_eq).
  assert (class_of w' (VObj g) = Some GuardedConfig) as Hg
    by (now rewrite (class_of_obj _ _ _ Ho)).
  assert (getattr_dict (VObj g) "_config" w' = (inr c, w')) as Hget
    by (now apply getattr_dict_obj with (o := o)).
  assert (class_of w' c = None) as Hcls.
  { destruct c; try reflexivity. now destruct (Hc l). }
  assert (forall name, exists e, getattr_dict c name w' = (inl e, w') /\
                                 exn_cls e = AttributeError) as Hread.
  { intros name. destruct c; try (eexists; split; reflexivity). now destruct (Hc l). }
  assert (forall name x, exists e, setattr_dict c name x w' = (inl e, w') /\
                                   exn_cls e = AttributeError) as Hwrite.
  { intros name x. destruct c; try (eexists; split; reflexivity). now destruct (Hc l). }
  exists w'. split; [reflexivity|]. split; [|split; [|split]].
  - rewrite dot_ip_guard by assumption.
    unfold GuardedConfig_ip_getter, bind. rewrite Hget.
    rewrite dot_ip_data by assumption. apply Hread.
  - rewrite dot_port_guard by assumption.
    unfold GuardedConfig_port_getter, bind. rewrite Hget.
    rewrite dot_port_data by assumption. apply Hread.
  - intros s Hs. rewrite set_ip_guard by assumption. rewrite ip_setter_eq.
    rewrite bool_decide_eq_true_2 by (now apply re_match_ipv4_iff).
    unfold bind. rewrite Hget.
    rewrite set_ip_data by assumption. apply Hwrite.
  - intros s Hs. rewrite set_ip_guard by assumption. rewrite ip_setter_eq.
    now rewrite (re_match_ipv4_None s Hs).
Qed.

Lemma wrapper_around_data_value_witness :
  (forall l, VNone <> VObj l) /\
  let g := fresh (dom (heap empty_world)) in
  exists w',
    GuardedConfig___init__ VNone empty_world = (inr (VObj g), w') /\
    (exists e, dot_ip 1 (VObj g) w' = (inl e, w') /\ exn_cls e = AttributeError) /\
    (exists e, dot_port 1 (VObj g) w' = (inl e, w') /\ exn_cls e = AttributeError) /\
    (forall s, has_dotted_quad_prefix s ->
       exists e, set_ip sample_externals 1 (VObj g) (VStr s) w' = (inl e, w') /\
                 exn_cls e = AttributeError) /\
    (forall s, ~ has_dotted_quad_prefix s ->
       set_ip sample_externals 1 (VObj g) (VStr s) w'
       = (inl (format_failure sample_externals (VStr s)), w')).
Proof.
  assert (forall l, VNone <> VObj l) as H by (intros l; discriminate).
  split; [exact H|].
  exact (wrapper_around_data_value sample_externals 0 empty_world VNone H).
Defined.

(** ** The parsers, failure by failure *)

Lemma import_config_try_open_fails (E : externals) (fuel : nat)
    (loads : string -> exn + value) (path : string) (w : world) (e : exn) :
  open_ E path = inl e ->
  import_config_try E fuel loads path w = (inl e, w).
Proof.
  intros Hopen. unfold import_config_try, lift. rewrite Hopen. reflexivity.
Qed.

Lemma import_config_try_read_fails (E : externals) (fuel : nat)
    (loads : string -> exn + value) (path : string) (w : world)
    (f : file) (e : exn) :
  open_ E path = inr f -> read E f = inl e ->
  import_config_try E fuel loads path w = (inl e, with_blank_config w).
Proof.
  intros Hopen Hread. unfold import_config_try, Config___init__, lift.
  rewrite Hopen. unfold bind at 1. unfold ret at 1.
  unfold bind at 1. unfold bind at 1. unfold alloc. unfold ret at 1.
  rewrite Hread. reflexivity.
Qed.

Lemma import_config_try_loads_fails (E : externals) (fuel : nat)
    (loads : string -> exn + value) (path : string) (w : world)
    (f : file) (text : string) (e : exn) :
  open_ E path = inr f -> read E f = inr text -> loads text = inl e ->
  import_config_try E fuel loads path w = (inl e, with_blank_config w).
Proof.
  intros Hopen Hread Hloads. unfold import_config_try, Config___init__, lift.
  rewrite Hopen. unfold bind at 1. unfold ret at 1.
  unfold bind at 1. unfold bind at 1. unfold alloc. unfold ret at 1.
  rewrite Hread. unfold bind at 1. unfold ret at 1.
  rewrite Hloads. reflexivity.
Qed.

Lemma import_config_try_non_mapping (E : externals) (fuel : nat)
    (loads : string -> exn + value) (path : string) (w : world)
    (f : file) (text : string) (v : value) :
  open_ E path = inr f -> read E f = inr text -> loads text = inr v ->
  (forall d, v <> VDict d) ->
  import_config_try E fuel loads path w
  = (inl (Exn AttributeError
            (Some ("'" +:+ type_name (with_blank_config w) v
                   +:+ "' object has no attribute 'keys'"))),
     with_blank_config w).
Proof.
  intros Hopen Hread Hloads Hv. unfold import_config_try, Config___init__, lift.
  rewrite Hopen. unfold bind at 1. unfold ret at 1.
  unfold bind at 1. unfold bind at 1. unfold alloc. unfold ret at 1.
  rewrite Hread. unfold bind at 1. unfold ret at 1.
  rewrite Hloads. unfold bind at 1. unfold ret at 1.
  unfold bind at 1.
  destruct v; try reflexivity. now destruct (Hv d).
Qed.

(** After the comparison of the keys: the two fields are fetched and
    stored one after the other. *)
Lemma import_config_populate (E : externals) (fuel : nat) (w1 : world)
    (l : loc) (d : list (value * value)) :
  class_of w1 (VObj l) = Some Config ->
  (do _ <~ for_each ["ip"; "port"] (fun key =>
        do x <~ getitem (VDict d) key in
        setattr E fuel (VObj l) key x) in
   ret (Fell (VObj l))) w1 =
  match dict_getitem d "ip" with
  | None => (inl (Exn KeyError (Some "'ip'")), w1)
  | Some ip =>
      match dict_getitem d "port" with
      | None => (inl (Exn KeyError (Some "'port'")), write_field w1 l "ip" ip)
      | Some port =>
          (inr (Fell (VObj l)),
           write_field (write_field w1 l "ip" ip) l "port" port)
      end
  end.
Proof.
  intros Hc. simpl for_each. unfold bind at 1 2 3. simpl getitem.
  destruct (dict_getitem d "ip") as [ip|]; [|reflexivity].
  unfold ret at 1. rewrite setattr_config_ip by assumption.
  unfold bind at 1 2.
  destruct (dict_getitem d "port") as [port|]; [|reflexivity].
  unfold ret at 1.
  rewrite setattr_config_port by (now rewrite class_of_write_field).
  reflexivity.
Qed.

Lemma import_config_with_result (E : externals) (fuel : nat)
    (loads : string -> exn + value) (path : string) (w : world) :
  import_config_with E fuel loads path w =
  match import_config_try E fuel loads path w with
  | (inl e, w0) =>
      if is_Exception (exn_cls e) then (inr VNone, logged w0 e) else (inl e, w0)
  | (inr (Returned r), w0) => (inr r, w0)
  | (inr (Fell config), w0) => (inr config, w0)
  end.
Proof.
  unfold import_config_with, bind, try_except_Exception.
  destruct (import_config_try E fuel loads path w) as [[e|[r|c]] w0];
    try reflexivity.
  now destruct (is_Exception (exn_cls e)).
Qed.

(** X12: when the file holds something that is not a mapping (a list,
    a string, a number, null), both parsers return [None]: the lookup
    of [keys] raises an [AttributeError] naming the type, which is
    caught and printed. *)
Theorem import_config_rejects_non_mapping (E : externals) (fuel : nat)
    (path : string) (w : world) (f : file) (text : string) (v : value) :
  open_ E path = inr f -> read E f = inr text ->
  (forall d, v <> VDict d) ->
  let e := Exn AttributeError
             (Some ("'" +:+ type_name (with_blank_config w) v
                    +:+ "' object has no attribute 'keys'")) in
  (json_loads E text = inr v ->
   JsonConfigParser_import_config E fuel path w
   = (inr VNone, logged (with_blank_config w) e)) /\
  (yaml_load E text = inr v ->
   YamlConfigParser_import_config E fuel path w
   = (inr VNone, logged (with_blank_config w) e)).
Proof.
  intros Hopen Hread Hv e.
  unfold JsonConfigParser_import_config, YamlConfigParser_import_config.
  split; intros Hloads; rewrite import_config_with_result;
    now rewrite (import_config_try_non_mapping E fuel _ path w f text v
                   Hopen Hread Hloads Hv).
Qed.

Lemma import_config_rejects_non_mapping_witness :
  open_ list_externals "list.json" = inr 0%nat /\
  read list_externals 0%nat = inr "[1, 2]" /\
  (forall d, VList [VInt 1; VInt 2] <> VDict d) /\
  json_loads list_externals "[1, 2]" = inr (VList [VInt 1; VInt 2]) /\
  JsonConfigParser_import_config list_externals 1 "list.json" empty_world
  = (inr VNone,
     logged (with_blank_config empty_world)
       (Exn AttributeError (Some "'list' object has no attribute 'keys'"))).
Proof.
  assert (forall d, VList [VInt 1; VInt 2] <> VDict d) as H by (intros d; discriminate).
  split; [reflexivity|]. split; [reflexivity|]. split; [exact H|].
  split; [reflexivity|].
  exact (proj1 (import_config_rejects_non_mapping list_externals 1 "list.json"
                  empty_world 0%nat "[1, 2]" (VList [VInt 1; VInt 2])
                  eq_refl eq_refl H) eq_refl).
Defined.

(** X13: what each failure of the environment leaves.  When the file
    cannot be opened, [import_config] returns [None], prints the
    exception and creates no object; when reading or deserialising
    fails, it returns [None] and prints the exception, and the [Config]
    it had created stays unpopulated. *)
Theorem import_config_environment_failures (E : externals) (fuel : nat)
    (path : string) (w : world) (e : exn) :
  is_Exception (exn_cls e) = true ->
  (open_ E path = inl e ->
   JsonConfigParser_import_config E fuel path w = (inr VNone, logged w e)) /\
  (forall f, open_ E path = inr f -> read E f = inl e ->
   JsonConfigParser_import_config E fuel path w
   = (inr VNone, logged (with_blank_config w) e)) /\
  (forall f text, open_ E path = inr f -> read E f = inr text ->
   json_loads E text = inl e ->
   JsonConfigParser_import_config E fuel path w
   = (inr VNone, logged (with_blank_config w) e)).
Proof.
  intros He. unfold JsonConfigParser_import_config. split; [|split].
  - intros Hopen. rewrite import_config_with_result.
    rewrite (import_config_try_open_fails E fuel _ path w e Hopen). now rewrite He.
  - intros f Hopen Hread. rewrite import_config_with_result.
    rewrite (import_config_try_read_fails E fuel _ path w f e Hopen Hread).
    now rewrite He.
  - intros f text Hopen Hread Hloads. rewrite import_config_with_result.
    rewrite (import_config_try_loads_fails E fuel _ path w f text e
               Hopen Hread Hloads).
    now rewrite He.
Qed.

Lemma import_config_environment_failures_witness :
  is_Exception OSError = true /\
  open_ sample_externals "missing.json"
  = inl (Exn OSError (Some "[Errno 2] No such file or directory: 'missing.json'")) /\
  JsonConfigParser_import_config sample_externals 1 "missing.json" sample_world
  = (inr VNone,
     logged sample_world
       (Exn OSError (Some "[Errno 2] No such file or directory: 'missing.json'"))).
Proof.
  split; [reflexivity|]. split; [reflexivity|].
  exact (proj1 (import_config_environment_failures sample_externals 1 "missing.json"
                  sample_world
                  (Exn OSError (Some "[Errno 2] No such file or directory: 'missing.json'"))
                  eq_refl) eq_refl).
Defined.

(** ** What the parsers leave alone *)

Lemma heap_extends_of_same_elsewhere (l : loc) (w w' : world) :
  heap w !! l = None -> same_elsewhere l w w' -> heap_extends w w'.
Proof.
  intros Hl Hsame l0 o Ho. rewrite Hsame; [assumption|]. intros ->. congruence.
Qed.

Lemma same_elsewhere_blank (w : world) :
  same_elsewhere (fresh (dom (heap w))) w (with_blank_config w).
Proof. intros l' Hne. unfold with_blank_config. simpl. now rewrite lookup_insert_ne. Qed.

Lemma same_elsewhere_write_field (l : loc) (w w1 : world) (k : string) (x : value) :
  same_elsewhere l w w1 -> same_elsewhere l w (write_field w1 l k x).
Proof.
  intros Hsame l' Hne. rewrite (write_field_same_elsewhere w1 l k x l' Hne).
  now apply Hsame.
Qed.

Lemma same_elsewhere_logged (l : loc) (w w1 : world) (e : exn) :
  same_elsewhere l w w1 -> same_elsewhere l w (logged w1 e).
Proof. intros Hsame l' Hne. simpl. now apply Hsame. Qed.

Lemma same_elsewhere_refl (l : loc) (w : world) : same_elsewhere l w w.
Proof. now intros l' _. Qed.

Lemma import_leaves_frame (w w' : world) :
  import_leaves w w' ->
  heap_extends w w' /\
  exists out, stdout w' = stdout w ++ out /\ (length out <= 1)%nat.
Proof.
  intros [w1 Hsame Hout|w1 e Hsame Hout]; split.
  - exact (heap_extends_of_same_elsewhere _ _ _ (fresh_loc_unused w) Hsame).
  - exists []. rewrite app_nil_r. auto.
  - apply (heap_extends_of_same_elsewhere _ _ _ (fresh_loc_unused w)).
    now apply same_elsewhere_logged.
  - eexists [_]. simpl. rewrite Hout. auto.
Qed.

Lemma import_leaves_caught (w w1 : world) (e : exn) (r : exn + value)
    (w' : world) :
  same_elsewhere (fresh (dom (heap w))) w w1 -> stdout w1 = stdout w ->
  (if is_Exception (exn_cls e) then (inr VNone, logged w1 e) else (inl e, w1))
  = (r, w') ->
  import_leaves w w' /\ forall v, r = inr v -> v = VNone.
Proof.
  intros Hsame Hout H. destruct (is_Exception (exn_cls e)); injection H as <- <-.
  - split; [now apply leaves_logged|]. now intros v [= <-].
  - split; [now apply leaves_quiet|discriminate].
Qed.

Ltac leaf H :=
  match goal with
  | |- import_leaves ?w _ /\ _ =>
      let Hl := fresh "Hl" in
      let Hr := fresh "Hr" in
      apply (import_leaves_caught w) in H as [Hl Hr];
      [ split; [exact Hl|intros ? Hres; left; exact (Hr _ Hres)]
      | auto using same_elsewhere_refl, same_elsewhere_write_field
      | rewrite ?write_field_stdout; reflexivity ]
  end.

Lemma classic_dict (v : value) :
  (exists d, v = VDict d) \/ (forall d, v <> VDict d).
Proof. destruct v; try (right; discriminate). left. eauto. Qed.

(** Every way [import_config] can end: the objects that were there are
    untouched, and the value returned is [None] or the new [Config],
    filled with the two entries of the mapping the file holds. *)
Lemma import_config_with_frame (E : externals) (fuel : nat)
    (loads : string -> exn + value) (path : string) (w w' : world)
    (res : exn + value) :
  import_config_with E fuel loads path w = (res, w') ->
  import_leaves w w' /\
  forall v, res = inr v ->
    v = VNone \/
    (v = VObj (fresh (dom (heap w))) /\
     exists f text d ip port,
       open_ E path = inr f /\ read E f = inr text /\
       loads text = inr (VDict d) /\
       (VStr "ip", ip) ∈ d /\ (VStr "port", port) ∈ d /\
       heap w' !! fresh (dom (heap w))
       = Some (Instance Config [("ip", ip); ("port", port)])).
Proof.
  intros H. rewrite import_config_with_result in H.
  pose proof (same_elsewhere_blank w) as Hblank.
  assert (stdout (with_blank_config w) = stdout w) as Hbout by reflexivity.
  destruct (open_ E path) as [e|f] eqn:Hopen.
  { rewrite (import_config_try_open_fails E fuel loads path w e Hopen) in H.
    leaf H. }
  destruct (read E f) as [e|text] eqn:Hread.
  { rewrite (import_config_try_read_fails E fuel loads path w f e Hopen Hread) in H.
    leaf H. }
  destruct (loads text) as [e|v0] eqn:Hloads.
  { rewrite (import_config_try_loads_fails E fuel loads path w f text e
               Hopen Hread Hloads) in H.
    leaf H. }
  destruct (classic_dict v0) as [[d ->]|Hv].
  2:{ rewrite (import_config_try_non_mapping E fuel loads path w f text v0
                 Hopen Hread Hloads Hv) in H.
      leaf H. }
  rewrite (import_config_try_mapping E fuel loads path w f text d
             Hopen Hread Hloads) in H.
  destruct (keys_ne (map fst d) ["ip"; "port"]).
  { injection H as <- <-. split; [now apply leaves_quiet|].
    intros v [= <-]. now left. }
  rewrite import_config_populate in H by apply class_of_blank_config.
  destruct (dict_getitem d "ip") as [ip|] eqn:Hip.
  2:{ leaf H. }
  destruct (dict_getitem d "port") as [port|] eqn:Hport.
  2:{ leaf H. }
  injection H as <- <-. split.
  - apply leaves_quiet.
    + now do 2 apply same_elsewhere_write_field.
    + now rewrite !write_field_stdout.
  - intros v [= <-]. right. split; [reflexivity|].
    exists f, text, d, ip, port.
    split; [reflexivity|]. split; [assumption|]. split; [assumption|].
    split; [now apply dict_getitem_elem|]. split; [now apply dict_getitem_elem|].
    rewrite with_blank_config_write. simpl. apply lookup_insert_eq.
Qed.

(** X14: whatever the file holds and however the environment behaves,
    [import_config] of either parser leaves every object that existed
    untouched and prints at most one line.  What it returns is [None]
    or a new object; and when it is an object, the file was opened,
    read and deserialised into a mapping, and the object is a [Config]
    whose ip and port are the entries of that mapping under the keys
    ip and port: a [Config] still blank, or copied halfway, is never
    handed out. *)
Theorem import_config_leaves_objects_alone (E : externals) (fuel : nat)
    (path : string) (w w' : world) (res : exn + value)
    (loads : string -> exn + value) :
  (loads = json_loads E /\
   JsonConfigParser_import_config E fuel path w = (res, w')) \/
  (loads = yaml_load E /\
   YamlConfigParser_import_config E fuel path w = (res, w')) ->
  heap_extends w w' /\
  (exists out, stdout w' = stdout w ++ out /\ (length out <= 1)%nat) /\
  (forall v, res = inr v ->
     v = VNone \/
     exists l f text d ip port,
       v = VObj l /\ heap w !! l = None /\
       open_ E path = inr f /\ read E f = inr text /\
       loads text = inr (VDict d) /\
       (VStr "ip", ip) ∈ d /\ (VStr "port", port) ∈ d /\
       heap w' !! l = Some (Instance Config [("ip", ip); ("port", port)])).
Proof.
  unfold JsonConfigParser_import_config, YamlConfigParser_import_config.
  intros [[-> H]|[-> H]]; apply import_config_with_frame in H as [Hleaves Hres];
    (destruct (import_leaves_frame w w' Hleaves) as [Hext Hout];
     split; [exact Hext|]; split; [exact Hout|];
     intros v Hv;
     destruct (Hres v Hv) as [->|[-> (f & text & d & ip & port & Hrest)]];
     [now left|];
     right; exists (fresh (dom (heap w))), f, text, d, ip, port;
     split; [reflexivity|]; split; [apply fresh_loc_unused|exact Hrest]).
Qed.

Lemma import_config_leaves_objects_alone_witness :
  let r := JsonConfigParser_import_config sample_externals 1 "config.json"
             sample_world in
  heap_extends sample_world r.2 /\
  (exists out, stdout r.2 = stdout sample_world ++ out /\ (length out <= 1)%nat) /\
  (forall v, r.1 = inr v ->
     v = VNone \/
     exists l f text d ip port,
       v = VObj l /\ heap sample_world !! l = None /\
       open_ sample_externals "config.json" = inr f /\
       read sample_externals f = inr text /\
       json_loads sample_externals text = inr (VDict d) /\
       (VStr "ip", ip) ∈ d /\ (VStr "port", port) ∈ d /\
       heap r.2 !! l = Some (Instance Config [("ip", ip); ("port", port)])).
Proof.
  intros r.
  exact (import_config_leaves_objects_alone sample_externals 1 "config.json"
           sample_world r.2 r.1 (json_loads sample_externals)
           (or_introl (conj eq_refl (surjective_pairing r)))).
Defined.

(** In the sample environment the object returned holds the entries of
    the file. *)
Example import_config_sample_in_world :
  JsonConfigParser_import_config sample_externals 1 "config.json" sample_world
  = (inr (VObj 3%positive),
     World (<[3%positive := Instance Config
                              [("ip", VStr "1.2.3.4"); ("port", VInt 80)]]>
              (heap sample_world)) []).
Proof. vm_compute. reflexivity. Qed.

(** ** Which parser for which file *)

Lemma endswith_iff (s suffix : string) :
  endswith s suffix = true <-> exists stem, s = stem +:+ suffix.
Proof.
  induction s as [|c s IH].
  - change (endswith "" suffix) with (String.eqb "" suffix || false).
    rewrite orb_false_r, String.eqb_eq. split.
    + intros <-. now exists "".
    + intros ([|c stem] & H); [exact H|discriminate].
  - change (endswith (String c s) suffix)
      with (String.eqb (String c s) suffix || endswith s suffix).
    rewrite orb_true_iff, String.eqb_eq, IH. split.
    + intros [<-|(stem & ->)]; [now exists ""|now exists (String c stem)].
    + intros ([|c' stem] & H).
      * left. exact H.
      * right. exists stem.
        change (String c s = String c' (stem +:+ suffix)) in H. congruence.
Qed.

Lemma json_is_not_yaml (a b : string) : a +:+ ".json" <> b +:+ ".yaml".
Proof.
  intros H. apply (f_equal list_ascii_of_string) in H.
  rewrite !list_ascii_of_string_app in H.
  apply app_inj_2 in H as [_ H]; [discriminate|reflexivity].
Qed.

(** X15: a parser declares a path compatible exactly when it names a
    regular file and ends with the parser's extension, in lower case
    and with nothing after it; so no path is compatible with both the
    JSON parser and the YAML parser. *)
Theorem is_file_compatible_by_extension (isfile : string -> bool) (path : string) :
  (JsonConfigParser_is_file_compatible isfile path = true <->
   isfile path = true /\ exists stem, path = stem +:+ ".json") /\
  (YamlConfigParser_is_file_compatible isfile path = true <->
   isfile path = true /\ exists stem, path = stem +:+ ".yaml") /\
  ~ (JsonConfigParser_is_file_compatible isfile path = true /\
     YamlConfigParser_is_file_compatible isfile path = true).
Proof.
  unfold JsonConfigParser_is_file_compatible, YamlConfigParser_is_file_compatible.
  rewrite !andb_true_iff, !endswith_iff. split; [reflexivity|]. split; [reflexivity|].
  intros [[_ (a & Ha)] [_ (b & Hb)]]. rewrite Ha in Hb.
  exact (json_is_not_yaml a b Hb).
Qed.

(** ** The demonstration *)

Lemma bind_step {A B} (m : M A) (k : A -> M B) (w w1 : world) (a : A)
    (r : (exn + B) * world) :
  m w = (inr a, w1) -> k a w1 = r -> bind m k w = r.
Proof. intros Hm Hk. unfold bind. now rewrite Hm. Qed.

Lemma bind_raise {A B} (m : M A) (k : A -> M B) (w w1 : world) (e : exn) :
  m w = (inl e, w1) -> bind m k w = (inl e, w1).
Proof. intros Hm. unfold bind. now rewrite Hm. Qed.



(** X16: [main] does not look at what [import_config] returned.  When
    the load gave [None], for whatever reason, the first assignment
    [config.ip = ...] raises an [AttributeError]; nothing more is
    printed and no wrapper is built. *)
Theorem main_fails_without_config (E : externals)
    (builtin_repr : value -> string) (fuel : nat) (w w1 : world) :
  YamlConfigParser_import_config E fuel "abc_example/config.yaml" w
  = (inr VNone, w1) ->
  exists e, main E builtin_repr fuel w = (inl e, w1) /\
            exn_cls e = AttributeError.
Proof.
  intros Himport. eexists. split.
  - unfold main. eapply bind_step; [reflexivity|].
    eapply bind_step; [exact Himport|]. cbv beta.
    apply bind_raise. rewrite set_ip_data by reflexivity. reflexivity.
  - reflexivity.
Qed.

Lemma main_fails_without_config_witness :
  YamlConfigParser_import_config sample_externals 1 "abc_example/config.yaml"
    empty_world
  = (inr VNone,
     logged empty_world
       (Exn OSError
          (Some "[Errno 2] No such file or directory: 'abc_example/config.yaml'"))) /\
  exists e,
    main sample_externals demo_repr 1 empty_world
    = (inl e,
       logged empty_world
         (Exn OSError
            (Some "[Errno 2] No such file or directory: 'abc_example/config.yaml'"))) /\
    exn_cls e = AttributeError.
Proof.
  split; [reflexivity|].
  exact (main_fails_without_config sample_externals demo_repr 1 empty_world _ eq_refl).
Defined.





(** The run of [main] in the second sample environment. *)
Example main_demo :
  main demo_externals demo_repr 1 empty_world
  = (inr tt,
     World (<[2%positive := Instance GuardedConfig [("_config", VObj 1%positive)]]>
              (<[1%positive := Instance Config
                                 [("ip", VStr "127.0.0.1"); ("port", VInt 6321)]]> ∅))
           ["Config(ip='123.123.123.123', port=80)";
            "GuardedConfig(ip='127.0.0.1', port=6321)";
            "guarded_config is an instance of Config, True"]).
Proof. vm_compute. reflexivity. Qed.
